(** * Shipping-bill extraction pipeline (main.py): model and properties

    A shallow embedding of the extraction core of [main.py]: the schema
    [COLUMNS], the model invoker [generate_json_from_gemini] with its
    response parsing ([json.loads] and the regular expression of
    [_extract_json_block]), the shape normalizer [normalize_extracted],
    the per-document pipeline [process_single_pdf_bytes] and the batch
    loop [process_uploaded_pdfs].

    Python [str] values are modelled as [string], the sequence of bytes
    of their UTF-8 encoding.  Every character the code inspects (brackets,
    quotes, JSON punctuation) is ASCII, and no byte of a multi-byte UTF-8
    sequence is an ASCII byte, so searching and comparing on bytes agrees
    with searching and comparing on code points. *)

From Stdlib Require Import String Ascii List ZArith NArith Lia Bool.
Import ListNotations.
Open Scope string_scope.
Open Scope list_scope.
Set Warnings "-register-all".

(** ** Decoded values *)

(** What [json.loads] can return.  A [dict] keeps its insertion order, so
    it is an association list; a Python dict has unique keys, which
    [dict_set] maintains.  A float is kept as the literal it was read
    from: no arithmetic is done on decoded values anywhere in the
    pipeline. *)
Inductive json : Type :=
| JNull
| JBool (b : bool)
| JInt (z : Z)
| JFloat (lit : string)
| JStr (s : string)
| JList (l : list json)
| JDict (d : list (string * json)).

Definition pydict : Type := list (string * json).

(** [d.get(k)] *)
Fixpoint dict_get (d : pydict) (k : string) : option json :=
  match d with
  | [] => None
  | (k', v) :: d' => if String.eqb k k' then Some v else dict_get d' k
  end.

(** [d.get(k, default)] *)
Definition dict_get_default (d : pydict) (k : string) (default : json) : json :=
  match dict_get d k with
  | Some v => v
  | None => default
  end.

(** [d[k] = v]: an existing key keeps its position and takes the new
    value; a new key goes last. *)
Fixpoint dict_set (d : pydict) (k : string) (v : json) : pydict :=
  match d with
  | [] => [(k, v)]
  | (k', v') :: d' =>
      if String.eqb k k' then (k', v) :: d' else (k', v') :: dict_set d' k v
  end.

(** [list(d.keys())] and [list(d.values())], in insertion order. *)
Definition dict_keys (d : pydict) : list string := map fst d.
Definition dict_values (d : pydict) : list json := map snd d.

(** [isinstance(x, list)] and [isinstance(x, dict)] *)
Definition is_list (x : json) : bool :=
  match x with JList _ => true | _ => false end.
Definition is_dict (x : json) : bool :=
  match x with JDict _ => true | _ => false end.

(** ** The schema *)

(** The rupee sign U+20B9 of the source, as its three UTF-8 bytes. *)
Definition rupee : string :=
  String (ascii_of_nat 226) (String (ascii_of_nat 130) (String (ascii_of_nat 185) "")).

Definition COLUMNS : list string := [
    "Sr. No."; "SB NO."; "S/B Date"; "LEO Date"; "CUSTOMER NAME"; "FINAL INVOICE NO";
    "SB. SOLAR / OTHER GOODS"; "PORT CODE"; "INCOTERMS"; "COUNTRY"; "H.S. Itch code";
    "PRODUCT GROUP"; "Qty"; "Unit"; "FOB Value declared by us (S/B)in FC";
    "Currency of export"; "Custom Exchange Rate in FC"; "LEO Date Exchange Rate in in FC";
    "FOB Value as per SB in INR"; "FOB Value as per LEO ex rate in INR";
    "ACTUAL FRT + INSURANC  IN FC"; "Total Invoice Value in FC as per SB";
    "PAYMENT RECEIPT"; "PAYMENT OUTSTANDING"; "Total Invoice Value in INR as per SB";
    "SCHEME (ADV/DFIA/DRAWBACK)"; "EPCG LICECE"; ("Drawback cap per unit in Rs. (" ++ rupee ++ ")")%string;
    "DBK %"; "DRAWBACK Receivable on fob"; "DRAWBCK Scrol NO"; "Scroll Date";
    "DBK Realized BEFORE 31.03.2026"; "SHORT REALIZATION"; "BAL DBK";
    "REASONS OF BAL DBK"; "REMARKS FOR ACTION TAKEN FOR RECOVERY AS ON DTD. XX.XX.2020";
    "RoDTEP%"; "RoDTEP RECEIVABLE"; "RoDTEP Y/N"; "Transmitted Y/N";
    "RoDTEP REALIZE BEFORE 31.03.2026"; "SCRIP NUMBER"; "SCRIP ISSUE DATE";
    "SORT REALIZAION"; "BAL RoDTEP"; "REASONS OF BAL RoDTEP";
    "DBK Not Realized BUT PAYMENT OUTSTANDING > 9 MONTH";
    "Reason for BAL/SHORTFALL";
    "REMARKS FOR ACTION TAKEN FOR RECOVERY AS ON DTD.";
    "BOOKING IN SAP"
  ].

(** ** Schema reconciliation (the loop closing [process_single_pdf_bytes]) *)

(** [{col: r.get(col, "") for col in cols}]: the comprehension inserts the
    columns one after the other into a fresh dict. *)
Definition project_onto (cols : list string) (r : pydict) : pydict :=
  fold_left (fun acc col => dict_set acc col (dict_get_default r col (JStr "")))
            cols [].

(** The [for r in rows] loop: entries that are not dicts are skipped, each
    dict is projected onto [COLUMNS]. *)
Fixpoint clean_rows (rows : list json) : list pydict :=
  match rows with
  | [] => []
  | JDict r :: rows' => project_onto COLUMNS r :: clean_rows rows'
  | _ :: rows' => clean_rows rows'
  end.

(** A duplicate check for lists of field names. *)
Fixpoint nodupb (l : list string) : bool :=
  match l with
  | [] => true
  | x :: l' => negb (existsb (String.eqb x) l') && nodupb l'
  end.

(** ** [json.loads]

    The decoder of Python's [json] package, as the pipeline uses it
    (default arguments, strict mode), over the grammar it accepts: the
    JSON values, plus the constants [NaN], [Infinity] and [-Infinity].
    [None] stands for the exception the decoder raises; both call sites
    in [generate_json_from_gemini] catch it with [except Exception].
    The recursion takes its fuel from the length of the text, of which
    every step consumes at least one character.  The interpreter's own
    limits (recursion depth, digits of an integer literal) are left out:
    beyond them the decoder raises, which the call sites treat like any
    other decoding failure. *)

Definition dquote : ascii := "034"%char.
Definition backslash : ascii := "092"%char.

Definition is_ws (c : ascii) : bool :=
  (c =? " ")%char || (c =? "009")%char || (c =? "010")%char || (c =? "013")%char.

Fixpoint skip_ws (s : string) : string :=
  match s with
  | String c r => if is_ws c then skip_ws r else s
  | EmptyString => s
  end.

(** [s[len(p):]] when [s.startswith(p)] *)
Fixpoint strip_prefix (p s : string) : option string :=
  match p, s with
  | EmptyString, _ => Some s
  | String a p', String b s' => if (a =? b)%char then strip_prefix p' s' else None
  | String _ _, EmptyString => None
  end.

Definition is_digit (c : ascii) : bool :=
  let n := N_of_ascii c in (48 <=? n)%N && (n <=? 57)%N.

Definition digit_val (c : ascii) : Z := Z.of_N (N_of_ascii c) - 48.

(** The longest prefix of digits, and what follows it. *)
Fixpoint span_digits (s : string) : string * string :=
  match s with
  | String c r =>
      if is_digit c then let (ds, r') := span_digits r in (String c ds, r')
      else (EmptyString, s)
  | EmptyString => (EmptyString, EmptyString)
  end.

Fixpoint digits_value (acc : Z) (ds : string) : Z :=
  match ds with
  | EmptyString => acc
  | String c r => digits_value (10 * acc + digit_val c)%Z r
  end.

(** The integer part of [NUMBER_RE]: an optional minus sign, then either
    a single zero or a non-zero digit followed by any digits. *)
Definition match_integer (s : string) : option (string * string) :=
  let (sign, s1) :=
    match s with
    | String c r => if (c =? "-")%char then ("-", r) else ("", s)
    | EmptyString => ("", s)
    end in
  match s1 with
  | String c r =>
      if (c =? "0")%char then Some ((sign ++ "0")%string, r)
      else if is_digit c then
        let (ds, r') := span_digits r in Some ((sign ++ String c ds)%string, r')
      else None
  | EmptyString => None
  end.

(** The optional fraction [(\.[0-9]+)?]. *)
Definition match_frac (s : string) : string * string :=
  match s with
  | String c r =>
      if (c =? ".")%char then
        match span_digits r with
        | (EmptyString, _) => (EmptyString, s)
        | (ds, r') => (String c ds, r')
        end
      else (EmptyString, s)
  | EmptyString => (EmptyString, s)
  end.

(** The optional exponent [([eE][-+]?[0-9]+)?]. *)
Definition match_exp (s : string) : string * string :=
  match s with
  | String e r =>
      if (e =? "e")%char || (e =? "E")%char then
        let (sign, r1) :=
          match r with
          | String c r' =>
              if (c =? "-")%char || (c =? "+")%char
              then (String c EmptyString, r') else (EmptyString, r)
          | EmptyString => (EmptyString, r)
          end in
        match span_digits r1 with
        | (EmptyString, _) => (EmptyString, s)
        | (ds, r2) => (String e (sign ++ ds)%string, r2)
        end
      else (EmptyString, s)
  | EmptyString => (EmptyString, s)
  end.

Definition int_of_literal (lit : string) : Z :=
  match lit with
  | String c r =>
      if (c =? "-")%char then (- digits_value 0 r)%Z else digits_value 0 lit
  | EmptyString => 0%Z
  end.

(** [match_number] and the two branches that follow it in the scanner:
    [int(integer)] when there is neither fraction nor exponent, a float
    otherwise. *)
Definition scan_number (s : string) : option (json * string) :=
  match match_integer s with
  | None => None
  | Some (integer, r) =>
      let (frac, r1) := match_frac r in
      let (exp, r2) := match_exp r1 in
      match frac, exp with
      | EmptyString, EmptyString => Some (JInt (int_of_literal integer), r2)
      | _, _ => Some (JFloat (integer ++ frac ++ exp)%string, r2)
      end
  end.

Definition hex_val (c : ascii) : option N :=
  let n := N_of_ascii c in
  if (48 <=? n)%N && (n <=? 57)%N then Some (n - 48)%N
  else if (65 <=? n)%N && (n <=? 70)%N then Some (n - 55)%N
  else if (97 <=? n)%N && (n <=? 102)%N then Some (n - 87)%N
  else None.

(** The four hexadecimal digits of a [\uXXXX] escape. *)
Definition take_hex4 (s : string) : option (N * string) :=
  match s with
  | String a (String b (String c (String d r))) =>
      match hex_val a, hex_val b, hex_val c, hex_val d with
      | Some x, Some y, Some z, Some w =>
          Some (((x * 16 + y) * 16 + z) * 16 + w, r)%N
      | _, _, _, _ => None
      end
  | _ => None
  end.

Definition byte_of (n : N) : ascii := ascii_of_N n.

(** [chr(n)], as the bytes of its UTF-8 encoding (a lone surrogate, which
    a Python [str] can hold, takes the three-byte form). *)
Definition utf8_encode (n : N) : string :=
  if (n <? 128)%N then String (byte_of n) EmptyString
  else if (n <? 2048)%N then
    String (byte_of (192 + n / 64)) (String (byte_of (128 + n mod 64)) EmptyString)
  else if (n <? 65536)%N then
    String (byte_of (224 + n / 4096))
      (String (byte_of (128 + (n / 64) mod 64))
         (String (byte_of (128 + n mod 64)) EmptyString))
  else
    String (byte_of (240 + n / 262144))
      (String (byte_of (128 + (n / 4096) mod 64))
         (String (byte_of (128 + (n / 64) mod 64))
            (String (byte_of (128 + n mod 64)) EmptyString))).

(** The table [BACKSLASH] of one-character escapes. *)
Definition unescape (e : ascii) : option ascii :=
  if (e =? dquote)%char then Some dquote
  else if (e =? backslash)%char then Some backslash
  else if (e =? "/")%char then Some "/"%char
  else if (e =? "b")%char then Some "008"%char
  else if (e =? "f")%char then Some "012"%char
  else if (e =? "n")%char then Some "010"%char
  else if (e =? "r")%char then Some "013"%char
  else if (e =? "t")%char then Some "009"%char
  else None.

Definition is_high_surrogate (u : N) : bool := (55296 <=? u)%N && (u <=? 56319)%N.
Definition is_low_surrogate (u : N) : bool := (56320 <=? u)%N && (u <=? 57343)%N.

(** [scanstring], entered after the opening quote: the decoded string and
    the text after the closing quote.  In strict mode a raw control
    character ends the decoding with an error. *)
Fixpoint scanstring (fuel : nat) (s acc : string) : option (string * string) :=
  match fuel with
  | O => None
  | S fuel' =>
      match s with
      | EmptyString => None
      | String c r =>
          if (c =? dquote)%char then Some (acc, r)
          else if (c =? backslash)%char then
            match r with
            | EmptyString => None
            | String e r' =>
                if (e =? "u")%char then
                  match take_hex4 r' with
                  | None => None
                  | Some (u, r1) =>
                      match is_high_surrogate u, strip_prefix "\u" r1 with
                      | true, Some r2 =>
                          match take_hex4 r2 with
                          | None => None
                          | Some (u2, r3) =>
                              if is_low_surrogate u2 then
                                scanstring fuel' r3
                                  (acc ++ utf8_encode
                                     (65536 + (u - 55296) * 1024 + (u2 - 56320))%N)%string
                              else scanstring fuel' r1 (acc ++ utf8_encode u)%string
                          end
                      | _, _ => scanstring fuel' r1 (acc ++ utf8_encode u)%string
                      end
                  end
                else
                  match unescape e with
                  | Some ch => scanstring fuel' r' (acc ++ String ch EmptyString)%string
                  | None => None
                  end
            end
          else if (N_of_ascii c <? 32)%N then None
          else scanstring fuel' r (acc ++ String c EmptyString)%string
      end
  end.

(** [scan_once], with [JSONArray] and [JSONObject]: the value at the head
    of [s] and the text that follows it.  An object is built as [dict(pairs)],
    so a repeated key keeps its first position and its last value. *)
Fixpoint scan_once (fuel : nat) (s : string) : option (json * string) :=
  match fuel with
  | O => None
  | S fuel' =>
      match s with
      | EmptyString => None
      | String c r =>
          if (c =? dquote)%char then
            match scanstring (S (String.length r)) r EmptyString with
            | Some (str, r') => Some (JStr str, r')
            | None => None
            end
          else if (c =? "{")%char then
            match skip_ws r with
            | String c1 r1 =>
                if (c1 =? "}")%char then Some (JDict [], r1)
                else if (c1 =? dquote)%char then object_loop fuel' r1 []
                else None
            | EmptyString => None
            end
          else if (c =? "[")%char then
            match skip_ws r with
            | String c1 r1 =>
                if (c1 =? "]")%char then Some (JList [], r1)
                else array_loop fuel' (String c1 r1) []
            | EmptyString => None
            end
          else
            match strip_prefix "null" s, strip_prefix "true" s,
                  strip_prefix "false" s with
            | Some r', _, _ => Some (JNull, r')
            | None, Some r', _ => Some (JBool true, r')
            | None, None, Some r' => Some (JBool false, r')
            | None, None, None =>
                match scan_number s with
                | Some res => Some res
                | None =>
                    match strip_prefix "NaN" s, strip_prefix "Infinity" s,
                          strip_prefix "-Infinity" s with
                    | Some r', _, _ => Some (JFloat "NaN", r')
                    | None, Some r', _ => Some (JFloat "Infinity", r')
                    | None, None, Some r' => Some (JFloat "-Infinity", r')
                    | None, None, None => None
                    end
                end
            end
      end
  end

(** The loop of [JSONArray], entered at the first character of a value;
    [acc] holds the values read so far, last first. *)
with array_loop (fuel : nat) (s : string) (acc : list json)
  : option (json * string) :=
  match fuel with
  | O => None
  | S fuel' =>
      match scan_once fuel' s with
      | None => None
      | Some (v, r) =>
          match skip_ws r with
          | String c r' =>
              if (c =? "]")%char then Some (JList (rev (v :: acc)), r')
              else if (c =? ",")%char then array_loop fuel' (skip_ws r') (v :: acc)
              else None
          | EmptyString => None
          end
      end
  end

(** The loop of [JSONObject], entered after the opening quote of a key;
    [acc] is the dict of the pairs read so far. *)
with object_loop (fuel : nat) (s : string) (acc : pydict)
  : option (json * string) :=
  match fuel with
  | O => None
  | S fuel' =>
      match scanstring (S (String.length s)) s EmptyString with
      | None => None
      | Some (key, r) =>
          match skip_ws r with
          | String c r1 =>
              if (c =? ":")%char then
                match scan_once fuel' (skip_ws r1) with
                | None => None
                | Some (v, r2) =>
                    match skip_ws r2 with
                    | String c2 r3 =>
                        if (c2 =? "}")%char then Some (JDict (dict_set acc key v), r3)
                        else if (c2 =? ",")%char then
                          match skip_ws r3 with
                          | String c3 r4 =>
                              if (c3 =? dquote)%char
                              then object_loop fuel' r4 (dict_set acc key v)
                              else None
                          | EmptyString => None
                          end
                        else None
                    | EmptyString => None
                    end
                end
              else None
          | EmptyString => None
          end
      end
  end.

(** [json.loads(text)]: one value, with optional whitespace around it and
    nothing else. *)
Definition json_loads (text : string) : option json :=
  let s := skip_ws text in
  match scan_once (S (String.length s)) s with
  | Some (v, r) =>
      match skip_ws r with
      | EmptyString => Some v
      | String _ _ => None
      end
  | None => None
  end.

(** Text with a double quote on either side, for writing JSON samples. *)
Definition q (s : string) : string :=
  (String dquote s ++ String dquote EmptyString)%string.

(** ** [_extract_json_block]

    [re.search(r"(\[.*\]|\{.*\})", text, re.DOTALL)].  The search tries the
    start positions from left to right.  At a position holding an opening
    square bracket the greedy [.*] (which, under [DOTALL], matches any
    character) runs to the last closing square bracket of the text; at a
    position holding an opening brace, to the last closing brace.  A position
    whose bracket has no closing partner after it does not match, and the
    search moves on. *)

(** The longest prefix of [s] that ends with the character [close]. *)
Fixpoint upto_last (close : ascii) (s : string) : option string :=
  match s with
  | EmptyString => None
  | String c r =>
      match upto_last close r with
      | Some p => Some (String c p)
      | None => if (c =? close)%char then Some (String c EmptyString) else None
      end
  end.

Fixpoint _extract_json_block (text : string) : option string :=
  match text with
  | EmptyString => None
  | String c r =>
      if (c =? "[")%char then
        match upto_last "]" r with
        | Some body => Some (String c body)
        | None => _extract_json_block r
        end
      else if (c =? "{")%char then
        match upto_last "}" r with
        | Some body => Some (String c body)
        | None => _extract_json_block r
        end
      else _extract_json_block r
  end.

(** Truth value of a [str]: [if block:] *)
Definition str_truthy (s : string) : bool :=
  match s with EmptyString => false | String _ _ => true end.

(** The part of the loop body of [generate_json_from_gemini] that follows
    the model call: [Some v] when one of the two [return json.loads(...)]
    is reached with value [v], [None] when the iteration ends without
    returning. *)
Definition attempt_decode (text : string) : option json :=
  match json_loads text with
  | Some v => Some v
  | None =>
      match _extract_json_block text with
      | Some block => if str_truthy block then json_loads block else None
      | None => None
      end
  end.

(** The fallback alone: the block found by the pattern, decoded. *)
Definition block_decode (text : string) : option json :=
  match _extract_json_block text with
  | Some block => json_loads block
  | None => None
  end.

(** ** Effects

    The pipeline calls the model and reads documents, and each of these can
    raise.  A computation takes the number of model calls made so far and
    gives back either a value or the message [str(e)] of the exception [e]
    it raised, with the new number of calls.  Exceptions are those of
    class [Exception], the ones the handlers of [main.py] catch. *)

Inductive result (A : Type) : Type :=
| Ok (a : A)
| Raise (msg : string).
Arguments Ok {A} a.
Arguments Raise {A} msg.

Definition M (A : Type) : Type := nat -> result A * nat.

Definition ret {A} (a : A) : M A := fun calls => (Ok a, calls).

Definition bind {A B} (m : M A) (k : A -> M B) : M B :=
  fun calls =>
    match m calls with
    | (Ok a, calls') => k a calls'
    | (Raise msg, calls') => (Raise msg, calls')
    end.

(** A collaborator's outcome, as a computation. *)
Definition lift {A} (r : result A) : M A := fun calls => (r, calls).

(** [try: m / except Exception as e: ...]: the outcome of [m], handed to
    the code that follows; nothing escapes. *)
Definition try_except {A} (m : M A) : M (result A) :=
  fun calls => let (r, calls') := m calls in (Ok r, calls').

Notation "x <- m ;; k" := (bind m (fun x => k))
  (at level 61, m at next level, right associativity).

(** An uploaded file: its [name], and what [read()] gives. *)
Record uploaded_file : Type := {
  name : string;
  read : result (list Byte.byte)
}.

Definition nl : string := String "010"%char EmptyString.

(** ** [repr] of a list of strings, as the f-string embeds [COLUMNS] *)

Definition hex_digit (n : N) : ascii :=
  if (n <? 10)%N then ascii_of_N (48 + n) else ascii_of_N (87 + n).

Definition mem_char (c : ascii) (s : string) : bool :=
  existsb (Ascii.eqb c) (list_ascii_of_string s).

(** The body of [repr(s)] between the quotes, [qc] being the quote in use.
    Bytes from 128 up belong to non-ASCII characters and are kept, as
    [repr] keeps printable ones (the rupee sign is the only such
    character of the schema). *)
Fixpoint repr_body (qc : ascii) (s : string) : string :=
  match s with
  | EmptyString => EmptyString
  | String c r =>
      let n := N_of_ascii c in
      let rest := repr_body qc r in
      if (c =? backslash)%char || (c =? qc)%char
      then String backslash (String c rest)
      else if (c =? "010")%char then String backslash (String "n" rest)
      else if (c =? "013")%char then String backslash (String "r" rest)
      else if (c =? "009")%char then String backslash (String "t" rest)
      else if (n <? 32)%N || (n =? 127)%N then
        String backslash
          (String "x" (String (hex_digit (n / 16)) (String (hex_digit (n mod 16)) rest)))
      else String c rest
  end.

(** [repr(s)]: single quotes, unless the string holds a single quote and
    no double quote. *)
Definition str_repr (s : string) : string :=
  let qc := if mem_char "'" s && negb (mem_char dquote s) then dquote else "'"%char in
  (String qc (repr_body qc s) ++ String qc EmptyString)%string.

(** [", ".join(items)] *)
Fixpoint join_comma (items : list string) : string :=
  match items with
  | [] => EmptyString
  | [x] => x
  | x :: rest => (x ++ ", " ++ join_comma rest)%string
  end.

Definition list_repr (l : list string) : string :=
  ("[" ++ join_comma (map str_repr l) ++ "]")%string.

(** ** The prompt *)

(** The f-string before the document: the task, the keys, the format. *)
Definition prompt_preamble : string :=
  (nl ++
   "You are an expert in export compliance. Extract material-wise line items from the given Shipping Bill." ++ nl ++
   "Return a JSON array where each element is a JSON object representing one material line item." ++ nl ++
   nl ++
   "Each object MUST contain the following keys (use empty string " ++ q "" ++ " where value is missing):" ++ nl ++
   list_repr COLUMNS ++ nl ++
   nl ++
   "Return strictly valid JSON (an array). Do not include extra commentary or text outside the JSON array." ++ nl ++
   nl ++
   "Document:" ++ nl)%string.

(** The whole f-string: the document goes between triple double quotes. *)
Definition extraction_prompt (full_text : string) : string :=
  (prompt_preamble ++ q (q (q full_text)) ++ nl)%string.

(** ** [normalize_extracted] *)

(** The loop [for v in extracted.values()]: the first value that is a list
    all of whose items are dicts. *)
Fixpoint first_dict_list (values : list json) : option (list json) :=
  match values with
  | [] => None
  | JList v :: values' =>
      if forallb is_dict v then Some v else first_dict_list values'
  | _ :: values' => first_dict_list values'
  end.

Definition normalize_extracted (extracted : json) : list json :=
  match extracted with
  | JList l => l
  | JDict d =>
      match first_dict_list (dict_values d) with
      | Some v => v
      | None => [extracted]
      end
  | _ => []
  end.

(** ** The pipeline *)

Definition NO_ITEMS : string := "No material items extracted (empty response).".

Section Pipeline.

(** The model: the outcome of the [k]-th call of [llm.invoke] ([k] counted
    from 0) with a given prompt, either the text of the response (its
    [content]) or an exception. *)
Variable llm_invoke : nat -> string -> result string.

(** The text extraction at the head of [process_single_pdf_bytes]
    (temporary file, [PyPDFLoader], joining the pages): the text of the
    document, or an exception. *)
Variable load_pdf_text : list Byte.byte -> result string.

Definition invoke (prompt : string) : M string :=
  fun calls => (llm_invoke calls prompt, S calls).

(** [for attempt in range(retries)]: one model call per attempt. *)
Fixpoint generate_json_from_gemini (prompt : string) (retries : nat) : M json :=
  match retries with
  | O => ret (JList [])
  | S retries' =>
      text <- invoke prompt ;;
      match attempt_decode text with
      | Some v => ret v
      | None => generate_json_from_gemini prompt retries'
      end
  end.

Definition process_single_pdf_bytes (pdf_bytes : list Byte.byte) : M (list pydict) :=
  full_text <- lift (load_pdf_text pdf_bytes) ;;
  extracted_raw <- generate_json_from_gemini (extraction_prompt full_text) 3 ;;
  let rows := normalize_extracted extracted_raw in
  ret (clean_rows rows).

(** The body of the [try] for one file, up to the value of [rows]. *)
Definition process_file (f : uploaded_file) : M (list pydict) :=
  pdf_bytes <- lift (read f) ;;
  process_single_pdf_bytes pdf_bytes.

(** The [for f in uploaded_files] loop, on the two accumulators. *)
Fixpoint process_loop (files : list uploaded_file)
         (all_rows : list pydict) (errors : list (string * string))
  : M (list pydict * list (string * string)) :=
  match files with
  | [] => ret (all_rows, errors)
  | f :: files' =>
      outcome <- try_except (process_file f) ;;
      match outcome with
      | Ok [] => process_loop files' all_rows (errors ++ [(name f, NO_ITEMS)])
      | Ok rows => process_loop files' (all_rows ++ rows) errors
      | Raise msg => process_loop files' all_rows (errors ++ [(name f, msg)])
      end
  end.

Definition process_uploaded_pdfs (uploaded_files : list uploaded_file)
  : M (list pydict * list (string * string)) :=
  process_loop uploaded_files [] [].

End Pipeline.

(** ** Vocabulary of the statements *)

(** [s] occurs in [t] as a contiguous piece. *)
Definition is_substring (s t : string) : Prop :=
  exists pre post, t = (pre ++ s ++ post)%string.

Fixpoint prefixb (s t : string) : bool :=
  match s, t with
  | EmptyString, _ => true
  | String a s', String b t' => (a =? b)%char && prefixb s' t'
  | String _ _, EmptyString => false
  end.

Fixpoint substringb (s t : string) : bool :=
  prefixb s t ||
  match t with
  | EmptyString => false
  | String _ t' => substringb s t'
  end.

(** The closing bracket that the pattern pairs with an opening one. *)
Definition closer_of (o : ascii) : option ascii :=
  if (o =? "[")%char then Some "]"%char
  else if (o =? "{")%char then Some "}"%char
  else None.

(** No position of [pre] starts a match of the pattern in [pre ++ rest]:
    wherever [pre] holds an opening bracket, its closing partner occurs
    nowhere after it. *)
Fixpoint no_block_start (pre rest : string) : Prop :=
  match pre with
  | EmptyString => True
  | String a pre' =>
      (forall c, closer_of a = Some c -> mem_char c (pre' ++ rest)%string = false) /\
      no_block_start pre' rest
  end.

(** The [i]-th model call counted from [calls] answers [prompt] with a text
    from which no attempt decodes a value. *)
Definition fails_at (llm_invoke : nat -> string -> result string)
           (prompt : string) (calls i : nat) : Prop :=
  exists text,
    llm_invoke (calls + i) prompt = Ok text /\ attempt_decode text = None.

Definition is_str (v : json) : bool :=
  match v with JStr _ => true | _ => false end.

(** What the batch loop owes for a sequence of documents, document by
    document, from the description of the Batch Coordinator: a document
    whose processing raises leaves an error pair with the message of the
    exception, a document without records leaves an error pair with the
    fixed message [no_records], any other document leaves its records;
    the results follow the order of the documents. *)
Inductive batch_result
          (llm_invoke : nat -> string -> result string)
          (load_pdf_text : list Byte.byte -> result string)
          (no_records : string)
  : list uploaded_file -> nat ->
    list pydict -> list (string * string) -> nat -> Prop :=
| batch_done calls :
    batch_result llm_invoke load_pdf_text no_records [] calls [] [] calls
| batch_raises f files calls msg calls1 rows errors calls2 :
    process_file llm_invoke load_pdf_text f calls = (Raise msg, calls1) ->
    batch_result llm_invoke load_pdf_text no_records files calls1 rows errors calls2 ->
    batch_result llm_invoke load_pdf_text no_records
                 (f :: files) calls rows ((name f, msg) :: errors) calls2
| batch_empty f files calls calls1 rows errors calls2 :
    process_file llm_invoke load_pdf_text f calls = (Ok [], calls1) ->
    batch_result llm_invoke load_pdf_text no_records files calls1 rows errors calls2 ->
    batch_result llm_invoke load_pdf_text no_records
                 (f :: files) calls rows ((name f, no_records) :: errors) calls2
| batch_records f files calls recs calls1 rows errors calls2 :
    process_file llm_invoke load_pdf_text f calls = (Ok recs, calls1) ->
    recs <> [] ->
    batch_result llm_invoke load_pdf_text no_records files calls1 rows errors calls2 ->
    batch_result llm_invoke load_pdf_text no_records
                 (f :: files) calls (recs ++ rows) errors calls2.

(** ** Sample data, from the examples of the specification *)

(** The candidate of the specification's example. *)
Definition sample_candidate : pydict :=
  [("SB NO.", JStr "123"); ("extra", JStr "x")].

(** A reply of the model that holds this candidate. *)
Definition sample_reply : string :=
  ("[{" ++ q "SB NO." ++ ":" ++ q "123" ++ ", " ++ q "extra" ++ ":" ++ q "x" ++ "}]")%string.

(** A candidate whose values are not strings. *)
Definition untyped_candidate : pydict :=
  [("SB NO.", JNull); ("Qty", JInt 5)].

(** A value is a candidate for the nested sequence when it is a list all
    of whose items are dicts. *)
Definition dict_list (v : json) : bool :=
  match v with JList l => forallb is_dict l | _ => false end.

(** The mapping of the specification's example: "x" bound to 1, "rows" to
    two mappings. *)
Definition wrapped_rows : json :=
  JDict [("x", JInt 1);
         ("rows", JList [JDict [("a", JInt 1)]; JDict [("a", JInt 2)]])].

(** The response of the specification's example, JSON wrapped in prose,
    and the bracketed region inside it. *)
Definition prose_block : string :=
  ("[{" ++ q "SB NO." ++ ":" ++ q "1" ++ "}]")%string.

Definition prose_reply : string :=
  ("Sure! Here is the data: " ++ prose_block ++ " Hope that helps!")%string.

(** The value of the example's block: one mapping, "SB NO." bound to "1". *)
Definition prose_value : json := JList [JDict [("SB NO.", JStr "1")]].

(** A model that answers its first call with the empty array and every
    later call with a one-record array. *)
Definition empty_then_rows (k : nat) (prompt : string) : result string :=
  match k with
  | O => Ok "[]"
  | S _ => Ok prose_block
  end.

(** A model whose every answer is the same text. *)
Definition always (text : string) (k : nat) (prompt : string) : result string :=
  Ok text.

(** A model that answers its first [n] calls with prose and the later
    ones with [text]. *)
Definition prose_then (n : nat) (text : string) (k : nat) (prompt : string)
  : result string :=
  if Nat.ltb k n then Ok "no data" else Ok text.

(** Three uploads: the second is the empty file, which the text
    extraction below rejects; a fourth whose [read()] raises. *)
Definition first_pdf : uploaded_file :=
  {| name := "first.pdf"; read := Ok [Byte.x25; Byte.x50] |}.
Definition broken_pdf : uploaded_file :=
  {| name := "broken.pdf"; read := Ok [] |}.
Definition third_pdf : uploaded_file :=
  {| name := "third.pdf"; read := Ok [Byte.x25; Byte.x44] |}.
Definition closed_pdf : uploaded_file :=
  {| name := "closed.pdf"; read := Raise "I/O operation on closed file." |}.

(** A text extraction that fails on the empty file. *)
Definition sample_load (pdf_bytes : list Byte.byte) : result string :=
  match pdf_bytes with
  | [] => Raise "Cannot read an empty file"
  | _ :: _ => Ok "SHIPPING BILL"
  end.

(** A model whose call raises. *)
Definition unavailable (k : nat) (prompt : string) : result string :=
  Raise "503 service unavailable".

(** ** The image helpers

    [get_base64_of_bin_file] and [get_img_with_href], which build the logo
    markup of the page header. *)

(** [base64.b64encode]: the character of a six-bit value in the standard
    alphabet. *)
Definition b64_char (n : N) : ascii :=
  if (n <? 26)%N then ascii_of_N (65 + n)
  else if (n <? 52)%N then ascii_of_N (97 + (n - 26))
  else if (n <? 62)%N then ascii_of_N (48 + (n - 52))
  else if (n =? 62)%N then "+"%char
  else "/"%char.

Definition b64_pad : ascii := "="%char.

(** [base64.b64encode(data).decode()]: three bytes give four characters;
    a last group of one or two bytes is padded with [=]. *)
Fixpoint b64encode (data : list Byte.byte) : string :=
  match data with
  | [] => EmptyString
  | [a] =>
      let x := Byte.to_N a in
      String (b64_char (x / 4))
        (String (b64_char ((x mod 4) * 16))
           (String b64_pad (String b64_pad EmptyString)))
  | [a; b] =>
      let x := Byte.to_N a in
      let y := Byte.to_N b in
      String (b64_char (x / 4))
        (String (b64_char ((x mod 4) * 16 + y / 16))
           (String (b64_char ((y mod 16) * 4))
              (String b64_pad EmptyString)))
  | a :: b :: c :: rest =>
      let x := Byte.to_N a in
      let y := Byte.to_N b in
      let z := Byte.to_N c in
      String (b64_char (x / 4))
        (String (b64_char ((x mod 4) * 16 + y / 16))
           (String (b64_char ((y mod 16) * 4 + z / 64))
              (String (b64_char (z mod 64)) (b64encode rest))))
  end.

(** [s.split(sep)] for a one-character separator: the pieces between the
    separators, of which there is always at least one. *)
Fixpoint split_on (sep : ascii) (s : string) : list string :=
  match s with
  | EmptyString => [EmptyString]
  | String c r =>
      if (c =? sep)%char then EmptyString :: split_on sep r
      else
        match split_on sep r with
        | piece :: pieces => String c piece :: pieces
        | [] => [String c EmptyString]
        end
  end.

(** [pieces[-1]], on a list that [split] produced. *)
Definition last_piece (pieces : list string) : string :=
  last pieces EmptyString.

Definition indent8 : string := "        ".
Definition indent12 : string := "            ".

(** The f-string of [get_img_with_href]. *)
Definition img_html (target_url img_format bin_str img_style : string) : string :=
  (nl ++
   indent8 ++ "<a href=" ++ q target_url ++ " target=" ++ q "_blank" ++ ">" ++ nl ++
   indent12 ++ "<img src=" ++ q ("data:image/" ++ img_format ++ ";base64," ++ bin_str) ++
   " style=" ++ q img_style ++ "/>" ++ nl ++
   indent8 ++ "</a>")%string.

Section Images.

(** The file system: what [open(path, 'rb').read()] gives, the bytes of
    the file or an exception; and [os.path.exists]. *)
Variable read_binary : string -> result (list Byte.byte).
Variable path_exists : string -> bool.

Definition get_base64_of_bin_file (bin_file : string) : result string :=
  match read_binary bin_file with
  | Ok data => Ok (b64encode data)
  | Raise msg => Raise msg
  end.

(** The body sits in a [try] whose bare [except] returns the empty string. *)
Definition get_img_with_href (local_img_path target_url img_style : string) : string :=
  let img_format := last_piece (split_on "." local_img_path) in
  match get_base64_of_bin_file local_img_path with
  | Ok bin_str => img_html target_url img_format bin_str img_style
  | Raise _ => EmptyString
  end.

Definition logo_style : string := "height: 60px; margin-left: 20px;".

(** The value of [logo_html] that [create_header] puts in its markup. *)
Definition header_logo_html : string :=
  if path_exists "assets/solar_logo.png" then
    get_img_with_href "assets/solar_logo.png" "https://solargroup.com" logo_style
  else if path_exists "solar_logo.png" then
    get_img_with_href "solar_logo.png" "https://solargroup.com" logo_style
  else EmptyString.

(** The f-string of [create_info_section] around the encoded image. *)
Definition spiral_html (bin_str : string) : string :=
  (nl ++
   indent8 ++ "<div style=" ++ q "text-align: center; margin: 2rem 0;" ++ ">" ++ nl ++
   indent12 ++ "<img src=" ++ q ("data:image/png;base64," ++ bin_str) ++ " " ++ nl ++
   indent12 ++ "     style=" ++ q "height: 80px; opacity: 0.8;" ++ ">" ++ nl ++
   indent8 ++ "</div>")%string.

(** The value of [spiral_logo_html] in [create_info_section]; here the
    encoding is not guarded, so its exception leaves the function. *)
Definition info_spiral_logo_html : result string :=
  if path_exists "assets/spiral_logo.png" then
    match get_base64_of_bin_file "assets/spiral_logo.png" with
    | Ok bin_str => Ok (spiral_html bin_str)
    | Raise msg => Raise msg
    end
  else if path_exists "spiral_logo.png" then
    match get_base64_of_bin_file "spiral_logo.png" with
    | Ok bin_str => Ok (spiral_html bin_str)
    | Raise msg => Raise msg
    end
  else Ok EmptyString.

End Images.

(** ** Further vocabulary *)

(** The characters [b64encode] can produce. *)
Definition is_b64_char (c : ascii) : bool :=
  let n := N_of_ascii c in
  ((65 <=? n)%N && (n <=? 90)%N) || ((97 <=? n)%N && (n <=? 122)%N) ||
  ((48 <=? n)%N && (n <=? 57)%N) ||
  (c =? "+")%char || (c =? "/")%char || (c =? "=")%char.

Fixpoint string_forall (p : ascii -> bool) (s : string) : bool :=
  match s with
  | EmptyString => true
  | String c r => p c && string_forall p r
  end.

(** The dicts among the items of a list, in order. *)
Fixpoint dicts_of (rows : list json) : list pydict :=
  match rows with
  | [] => []
  | JDict r :: rows' => r :: dicts_of rows'
  | _ :: rows' => dicts_of rows'
  end.

(** A model that raises at call [n] and answers prose before it. *)
Definition prose_then_raise (n : nat) (msg : string) (k : nat) (prompt : string)
  : result string :=
  if Nat.ltb k n then Ok "no data" else Raise msg.

(** A file system holding one readable logo. *)
Definition sample_files (path : string) : result (list Byte.byte) :=
  if String.eqb path "solar_logo.png"
  then Ok [Byte.x89; Byte.x50; Byte.x4e; Byte.x47]
  else Raise "No such file or directory".

(** Paths that exist in the sample file system; the spiral logo exists but
    cannot be read. *)
Definition sample_exists (path : string) : bool :=
  String.eqb path "solar_logo.png" || String.eqb path "assets/spiral_logo.png".

(** The block as the description of the Response Parser words it: the
    span from the first opening bracket or brace of the text to the last
    closing partner of that character, and no block when that first
    opening character has no partner after it. *)
Fixpoint first_opener_block (text : string) : option string :=
  match text with
  | EmptyString => None
  | String c r =>
      match closer_of c with
      | Some close =>
          match upto_last close r with
          | Some body => Some (String c body)
          | None => None
          end
      | None => first_opener_block r
      end
  end.

(** A reply cut off in the middle of its second object: the opening
    bracket is never closed, the first object is. *)
Definition truncated_reply : string :=
  ("[{" ++ q "a" ++ ": 1}, {" ++ q "b" ++ ": 2")%string.

(** ** Facts about dicts *)

Section DictFacts.

Implicit Types (d : pydict) (k : string) (v : json).

Lemma dict_set_fresh d k v :
  ~ In k (dict_keys d) -> dict_set d k v = d ++ [(k, v)].
Proof.
  induction d as [|[k' v'] d IH]; simpl; intros Hk; [reflexivity|].
  destruct (String.eqb_spec k k') as [->|_].
  - exfalso. apply Hk. now left.
  - rewrite IH; [reflexivity|]. intros Hin. apply Hk. now right.
Qed.

Lemma dict_get_app d1 d2 k :
  dict_get (d1 ++ d2) k =
  match dict_get d1 k with Some v => Some v | None => dict_get d2 k end.
Proof.
  induction d1 as [|[k' v'] d1 IH]; simpl; [reflexivity|].
  destruct (String.eqb k k'); [reflexivity|apply IH].
Qed.

Lemma dict_get_None d k : dict_get d k = None <-> ~ In k (dict_keys d).
Proof.
  induction d as [|[k' v'] d IH]; simpl.
  - tauto.
  - destruct (String.eqb_spec k k') as [->|Hne].
    + split; [discriminate|]. intros H. exfalso. apply H. now left.
    + rewrite IH. split; intros H; [intros [E|Hin]|]; try tauto.
      now apply Hne.
Qed.

Lemma dict_get_map (f : string -> json) (cols : list string) k :
  dict_get (map (fun col => (col, f col)) cols) k =
  if in_dec string_dec k cols then Some (f k) else None.
Proof.
  induction cols as [|c cols IH]; simpl; [reflexivity|].
  destruct (String.eqb_spec k c) as [->|Hne].
  - destruct (string_dec c c); [reflexivity|congruence].
  - rewrite IH. destruct (string_dec c k); [congruence|].
    destruct (in_dec string_dec k cols); reflexivity.
Qed.

Lemma dict_keys_map (f : string -> json) (cols : list string) :
  dict_keys (map (fun col => (col, f col)) cols) = cols.
Proof.
  induction cols as [|c cols IH]; simpl; [reflexivity|].
  f_equal. exact IH.
Qed.

Lemma dict_values_map (f : string -> json) (cols : list string) :
  dict_values (map (fun col => (col, f col)) cols) = map f cols.
Proof.
  induction cols as [|c cols IH]; simpl; [reflexivity|].
  f_equal. exact IH.
Qed.

End DictFacts.

(** The comprehension over a duplicate-free column list builds the dict
    with exactly these columns, in order. *)
Lemma fold_dict_set_map (f : string -> json) (cols : list string) :
  forall acc : pydict,
    NoDup cols ->
    (forall c, In c cols -> ~ In c (dict_keys acc)) ->
    fold_left (fun a col => dict_set a col (f col)) cols acc =
    acc ++ map (fun col => (col, f col)) cols.
Proof.
  induction cols as [|c cols IH]; simpl; intros acc Hnd Hfresh.
  - now rewrite app_nil_r.
  - inversion Hnd as [|? ? Hc Hnd']; subst.
    rewrite dict_set_fresh by (apply Hfresh; now left).
    rewrite IH; [now rewrite <- app_assoc|assumption|].
    intros c' Hc'. unfold dict_keys. rewrite map_app, in_app_iff. simpl.
    intros [Hin|[->|[]]].
    + apply (Hfresh c'); [now right|exact Hin].
    + contradiction.
Qed.

Lemma project_onto_map (cols : list string) (r : pydict) :
  NoDup cols ->
  project_onto cols r =
  map (fun col => (col, dict_get_default r col (JStr ""))) cols.
Proof.
  intros Hnd. unfold project_onto.
  rewrite (fold_dict_set_map (fun col => dict_get_default r col (JStr ""))); auto.
Qed.

Lemma nodupb_NoDup l : nodupb l = true -> NoDup l.
Proof.
  induction l as [|x l IH]; simpl; intros H; constructor.
  - apply andb_prop in H as [H _]. intros Hin.
    apply negb_true_iff in H.
    assert (existsb (String.eqb x) l = true) as E; [|congruence].
    apply existsb_exists. exists x. split; [assumption|apply String.eqb_refl].
  - apply IH. now apply andb_prop in H as [_ H].
Qed.

Lemma COLUMNS_NoDup : NoDup COLUMNS.
Proof. apply nodupb_NoDup. vm_compute. reflexivity. Qed.

Lemma COLUMNS_length : length COLUMNS = 51.
Proof. reflexivity. Qed.

Lemma project_onto_COLUMNS (r : pydict) :
  project_onto COLUMNS r =
  map (fun col => (col, dict_get_default r col (JStr ""))) COLUMNS.
Proof. apply project_onto_map, COLUMNS_NoDup. Qed.

Lemma project_keys (r : pydict) : dict_keys (project_onto COLUMNS r) = COLUMNS.
Proof.
  rewrite project_onto_COLUMNS. apply dict_keys_map.
Qed.

Lemma project_get (r : pydict) (k : string) :
  dict_get (project_onto COLUMNS r) k =
  if in_dec string_dec k COLUMNS
  then Some (dict_get_default r k (JStr "")) else None.
Proof. rewrite project_onto_COLUMNS. apply dict_get_map. Qed.

Lemma clean_rows_In (rows : list json) (rec : pydict) :
  In rec (clean_rows rows) <->
  exists r, In (JDict r) rows /\ rec = project_onto COLUMNS r.
Proof.
  induction rows as [|x rows IH]; simpl.
  - split; [tauto|]. intros (r & [] & _).
  - destruct x; simpl; rewrite ?IH;
      try (split; [intros (r & Hin & E); exists r; tauto
                  |intros (r & [E'|Hin] & E); [discriminate|exists r; tauto]]).
    split.
    + intros [<-|(r & Hin & E)]; [exists d; tauto|exists r; tauto].
    + intros (r & [E'|Hin] & E); [left; congruence|right; exists r; tauto].
Qed.

(** ** The Schema Reconciler *)

Lemma clean_rows_keys (rows : list json) :
  Forall (fun rec => dict_keys rec = COLUMNS) (clean_rows rows).
Proof.
  apply Forall_forall. intros rec Hin.
  apply clean_rows_In in Hin as (r & _ & ->). apply project_keys.
Qed.

Lemma bind_Ok {A B} (m : M A) (k : A -> M B) calls b calls' :
  bind m k calls = (Ok b, calls') ->
  exists a calls1, m calls = (Ok a, calls1) /\ k a calls1 = (Ok b, calls').
Proof.
  unfold bind. destruct (m calls) as [[a|msg] calls1]; intros H.
  - exists a, calls1. split; [reflexivity|exact H].
  - discriminate.
Qed.

Lemma process_single_records llm load bytes calls recs calls' :
  process_single_pdf_bytes llm load bytes calls = (Ok recs, calls') ->
  exists rows, recs = clean_rows rows.
Proof.
  unfold process_single_pdf_bytes. intros H.
  apply bind_Ok in H as (text & c1 & _ & H).
  apply bind_Ok in H as (raw & c2 & _ & H).
  unfold ret in H. injection H as <- _.
  now exists (normalize_extracted raw).
Qed.

(** C1 (as amended): every Record the pipeline emits has as its keys
    exactly the field names of the Schema, which are the 51 pairwise
    distinct entries of [COLUMNS], in that order: for every candidate
    mapping the projection's keys are [COLUMNS], a Schema field absent from
    the candidate is bound to the empty string, and a key outside the Schema
    is absent from the Record; so it is for every Record returned by
    [process_single_pdf_bytes]. *)
Theorem record_keys_are_schema :
  length COLUMNS = 51 /\ NoDup COLUMNS /\
  (forall r : pydict,
      dict_keys (project_onto COLUMNS r) = COLUMNS /\
      (forall col, In col COLUMNS -> dict_get r col = None ->
                   dict_get (project_onto COLUMNS r) col = Some (JStr "")) /\
      (forall k, ~ In k COLUMNS ->
                 dict_get (project_onto COLUMNS r) k = None)) /\
  (forall llm load bytes calls recs calls',
      process_single_pdf_bytes llm load bytes calls = (Ok recs, calls') ->
      Forall (fun rec => dict_keys rec = COLUMNS) recs).
Proof.
  split; [exact COLUMNS_length|]. split; [exact COLUMNS_NoDup|]. split.
  - intros r. split; [apply project_keys|]. split.
    + intros col Hin Habs. rewrite project_get.
      destruct (in_dec string_dec col COLUMNS) as [_|Hn]; [|contradiction].
      unfold dict_get_default. now rewrite Habs.
    + intros k Hk. rewrite project_get.
      destruct (in_dec string_dec k COLUMNS) as [Hin|_]; [contradiction|reflexivity].
  - intros llm load bytes calls recs calls' H.
    apply process_single_records in H as (rows & ->). apply clean_rows_keys.
Qed.

(** The example of the specification: the candidate with fields "SB NO."
    and "extra" keeps the first, gets the empty string for "Qty" and loses
    "extra". *)
Lemma record_keys_are_schema_witness :
  dict_get (project_onto COLUMNS sample_candidate) "Qty" = Some (JStr "") /\
  dict_get (project_onto COLUMNS sample_candidate) "extra" = None /\
  Forall (fun rec => dict_keys rec = COLUMNS)
         [project_onto COLUMNS sample_candidate].
Proof.
  destruct record_keys_are_schema as (_ & _ & Hproj & Hpipe).
  destruct (Hproj sample_candidate) as (_ & Habs & Hdrop).
  split; [|split].
  - apply Habs; [|reflexivity].
    destruct (in_dec string_dec "Qty" COLUMNS) as [Hin|Hn]; [exact Hin|].
    exfalso. vm_compute in Hn. tauto.
  - apply Hdrop.
    destruct (in_dec string_dec "extra" COLUMNS) as [Hin|Hn]; [|exact Hn].
    exfalso. revert Hin. vm_compute. intuition discriminate.
  - apply (Hpipe (fun _ _ => Ok sample_reply) (fun _ => Ok "") [] 0 _ 1).
    vm_compute. reflexivity.
Defined.

(** C1, as first stated, counts 48 Schema fields; [COLUMNS] has 51, and so
    has every Record. *)
Lemma record_keys_count_counterexample :
  length (dict_keys (project_onto COLUMNS sample_candidate)) = 51 /\
  length COLUMNS <> 48.
Proof. split; [reflexivity|discriminate]. Qed.

(** C6, as first stated, has every value of a Record a string; a null and
    a number of the candidate are copied as they are. *)
Lemma record_values_counterexample :
  dict_get (project_onto COLUMNS untyped_candidate) "SB NO." = Some JNull /\
  dict_get (project_onto COLUMNS untyped_candidate) "Qty" = Some (JInt 5) /\
  ~ Forall (fun v => is_str v = true)
      (dict_values (project_onto COLUMNS untyped_candidate)).
Proof.
  split; [reflexivity|]. split; [reflexivity|].
  intros H. rewrite Forall_forall in H.
  specialize (H JNull). simpl in H.
  assert (In JNull (dict_values (project_onto COLUMNS untyped_candidate))) as Hin
      by (vm_compute; tauto).
  specialize (H Hin). discriminate.
Qed.

(** C6 (as amended): for every candidate mapping, the Record binds each
    Schema field to the candidate's value for it, unchanged, when the field
    is present, and to the empty string when it is absent; so the values of
    the Record are all strings whenever the candidate's values for the
    Schema fields are strings. *)
Theorem record_values_copied (r : pydict) :
  (forall col v, In col COLUMNS -> dict_get r col = Some v ->
                 dict_get (project_onto COLUMNS r) col = Some v) /\
  (forall col, In col COLUMNS -> dict_get r col = None ->
               dict_get (project_onto COLUMNS r) col = Some (JStr "")) /\
  ((forall col v, In col COLUMNS -> dict_get r col = Some v -> is_str v = true) ->
   Forall (fun v => is_str v = true) (dict_values (project_onto COLUMNS r))).
Proof.
  split; [|split].
  - intros col v Hin Hget. rewrite project_get.
    destruct (in_dec string_dec col COLUMNS) as [_|Hn]; [|contradiction].
    unfold dict_get_default. now rewrite Hget.
  - intros col Hin Hget. rewrite project_get.
    destruct (in_dec string_dec col COLUMNS) as [_|Hn]; [|contradiction].
    unfold dict_get_default. now rewrite Hget.
  - intros Hstr. rewrite project_onto_COLUMNS, dict_values_map.
    apply Forall_forall. intros v Hv.
    apply in_map_iff in Hv as (col & <- & Hin).
    unfold dict_get_default.
    destruct (dict_get r col) as [v|] eqn:Hget; [|reflexivity].
    now apply (Hstr col).
Qed.

Lemma In_COLUMNS_dec (k : string) :
  (if in_dec string_dec k COLUMNS then true else false) = true -> In k COLUMNS.
Proof. destruct (in_dec string_dec k COLUMNS); [trivial|discriminate]. Qed.

Lemma record_values_copied_witness :
  dict_get (project_onto COLUMNS sample_candidate) "SB NO." = Some (JStr "123") /\
  dict_get (project_onto COLUMNS sample_candidate) "Qty" = Some (JStr "") /\
  Forall (fun v => is_str v = true)
         (dict_values (project_onto COLUMNS sample_candidate)).
Proof.
  destruct (record_values_copied sample_candidate) as (Hcopy & Habs & Hstr).
  split; [|split].
  - apply Hcopy; [apply In_COLUMNS_dec|]; reflexivity.
  - apply Habs; [apply In_COLUMNS_dec|]; reflexivity.
  - apply Hstr. intros col v _ Hget. unfold sample_candidate in Hget. simpl in Hget.
    destruct (String.eqb col "SB NO."); [now injection Hget as <-|].
    destruct (String.eqb col "extra"); [now injection Hget as <-|discriminate].
Defined.

(** ** The Shape Normalizer *)

Lemma first_dict_list_skip (pre post : list json) :
  Forall (fun v => dict_list v = false) pre ->
  first_dict_list (pre ++ post) = first_dict_list post.
Proof.
  induction 1 as [|v pre Hv _ IH]; simpl; [reflexivity|].
  destruct v; simpl in Hv; try exact IH. now rewrite Hv.
Qed.

Lemma first_dict_list_none (values : list json) :
  Forall (fun v => dict_list v = false) values ->
  first_dict_list values = None.
Proof.
  intros H. rewrite <- (app_nil_r values). now rewrite first_dict_list_skip.
Qed.

Lemma dict_values_app (d1 d2 : pydict) :
  dict_values (d1 ++ d2) = dict_values d1 ++ dict_values d2.
Proof. apply map_app. Qed.

Lemma normalize_dict_first (pre : pydict) k l (post : pydict) :
  Forall (fun v => dict_list v = false) (dict_values pre) ->
  forallb is_dict l = true ->
  normalize_extracted (JDict (pre ++ (k, JList l) :: post)) = l.
Proof.
  intros Hpre Hl. unfold normalize_extracted.
  rewrite dict_values_app, first_dict_list_skip by exact Hpre.
  simpl. now rewrite Hl.
Qed.

(** C4, as first stated, sends a sequence of non-mappings to the empty
    sequence; [normalize_extracted] returns every list as it is. *)
Lemma normalize_list_counterexample :
  normalize_extracted (JList [JInt 1; JStr "a"]) = [JInt 1; JStr "a"] /\
  normalize_extracted (JList [JInt 1; JStr "a"]) <> [].
Proof. split; [reflexivity|discriminate]. Qed.

(** C4 (as amended): [normalize_extracted] returns a sequence unchanged,
    whatever its items; in a mapping it returns the first value, in
    insertion order, that is a sequence made of mappings only, and when
    there is none it returns the mapping wrapped as a one-element
    sequence; any value that is neither a sequence nor a mapping (null, a
    boolean, a number, a string) gives the empty sequence. *)
Theorem normalize_extracted_shapes :
  (forall l, normalize_extracted (JList l) = l) /\
  (forall pre k l post,
      Forall (fun v => dict_list v = false) (dict_values pre) ->
      forallb is_dict l = true ->
      normalize_extracted (JDict (pre ++ (k, JList l) :: post)) = l) /\
  (forall d,
      Forall (fun v => dict_list v = false) (dict_values d) ->
      normalize_extracted (JDict d) = [JDict d]) /\
  (forall x, is_list x = false -> is_dict x = false ->
             normalize_extracted x = []) /\
  normalize_extracted wrapped_rows = [JDict [("a", JInt 1)]; JDict [("a", JInt 2)]].
Proof.
  split; [reflexivity|]. split; [|split; [|split; [|reflexivity]]].
  - exact normalize_dict_first.
  - intros d Hd. unfold normalize_extracted.
    now rewrite first_dict_list_none.
  - intros x Hl Hd. destruct x; simpl in *; try reflexivity; discriminate.
Qed.

Lemma normalize_extracted_shapes_witness :
  normalize_extracted
    (JDict ([("x", JInt 1); ("tags", JList [JStr "t"])] ++
            ("rows", JList [JDict []]) :: [("more", JList [])])) = [JDict []] /\
  normalize_extracted (JDict [("a", JInt 1)]) = [JDict [("a", JInt 1)]] /\
  normalize_extracted (JStr "text") = [] /\
  normalize_extracted (JInt 7) = [].
Proof.
  destruct normalize_extracted_shapes as (_ & Hfirst & Hwrap & Hother & _).
  split; [|split; [|split]].
  - apply Hfirst; [|reflexivity]. repeat constructor.
  - apply Hwrap. repeat constructor.
  - apply Hother; reflexivity.
  - apply Hother; reflexivity.
Defined.

(** C9: a mapping whose first sequence-valued entry, in insertion order,
    is the empty sequence is normalized to the empty sequence: it is
    neither wrapped nor searched further. *)
Theorem normalize_empty_nested (pre : pydict) (k : string) (post : pydict) :
  Forall (fun v => is_list v = false) (dict_values pre) ->
  normalize_extracted (JDict (pre ++ (k, JList []) :: post)) = [].
Proof.
  intros Hpre. apply normalize_dict_first; [|reflexivity].
  eapply Forall_impl; [|exact Hpre].
  intros v Hv. destruct v; simpl in *; try reflexivity; discriminate.
Qed.

(** The example [{"items": []}], here after a scalar entry and before a
    non-empty sequence of mappings. *)
Lemma normalize_empty_nested_witness :
  normalize_extracted
    (JDict ([("n", JInt 3)] ++ ("items", JList []) ::
            [("rows", JList [JDict [("a", JInt 1)]])])) = [].
Proof.
  apply normalize_empty_nested. repeat constructor.
Defined.

(** ** The Prompt Builder *)

Lemma str_app_assoc (a b c : string) :
  ((a ++ b) ++ c = a ++ (b ++ c))%string.
Proof. induction a as [|x a IH]; simpl; [reflexivity|now rewrite IH]. Qed.

Lemma str_app_nil_r (a : string) : (a ++ "")%string = a.
Proof. induction a as [|x a IH]; simpl; [reflexivity|now rewrite IH]. Qed.

Lemma prefixb_sound (s t : string) :
  prefixb s t = true -> exists post, t = (s ++ post)%string.
Proof.
  revert t. induction s as [|a s IH]; intros t H.
  - now exists t.
  - destruct t as [|b t]; simpl in H; [discriminate|].
    apply andb_prop in H as [Hab Hst].
    apply Ascii.eqb_eq in Hab as ->.
    destruct (IH t Hst) as [post ->]. now exists post.
Qed.

Lemma substringb_sound (s t : string) :
  substringb s t = true -> is_substring s t.
Proof.
  induction t as [|b t IH]; simpl; intros H.
  - apply orb_prop in H as [H|H]; [|discriminate].
    apply prefixb_sound in H as [post ->]. now exists EmptyString, post.
  - apply orb_prop in H as [H|H].
    + apply prefixb_sound in H as [post ->]. now exists EmptyString, post.
    + destruct (IH H) as (pre & post & ->). now exists (String b pre), post.
Qed.

Lemma is_substring_app_l (s a b : string) :
  is_substring s a -> is_substring s (a ++ b)%string.
Proof.
  intros (pre & post & ->). exists pre, (post ++ b)%string.
  now rewrite !str_app_assoc.
Qed.

Lemma is_substring_app_r (s a b : string) :
  is_substring s b -> is_substring s (a ++ b)%string.
Proof.
  intros (pre & post & ->). exists (a ++ pre)%string, post.
  now rewrite !str_app_assoc.
Qed.

Lemma is_substring_q (s t : string) : is_substring s t -> is_substring s (q t).
Proof.
  intros H. unfold q.
  apply (is_substring_app_l s (String dquote t)).
  apply (is_substring_app_r s (String dquote EmptyString) t). exact H.
Qed.

Lemma is_substring_refl (s : string) : is_substring s s.
Proof. exists EmptyString, EmptyString. simpl. now rewrite str_app_nil_r. Qed.

Lemma preamble_names_schema :
  forallb (fun col => substringb col prompt_preamble) COLUMNS = true.
Proof. vm_compute. reflexivity. Qed.

(** C7: for every document text, the empty one included, the prompt is a
    string in which every Schema field name occurs verbatim and in which
    the document text occurs verbatim. *)
Theorem prompt_holds_schema_and_text (full_text : string) :
  (forall col, In col COLUMNS ->
               is_substring col (extraction_prompt full_text)) /\
  is_substring full_text (extraction_prompt full_text).
Proof.
  split.
  - intros col Hin. unfold extraction_prompt.
    apply is_substring_app_l, substringb_sound.
    pose proof preamble_names_schema as H.
    rewrite forallb_forall in H. now apply H.
  - unfold extraction_prompt.
    apply is_substring_app_r, is_substring_app_l.
    do 3 apply is_substring_q. apply is_substring_refl.
Qed.

Lemma prompt_holds_schema_and_text_witness :
  is_substring "SB NO." (extraction_prompt "") /\
  is_substring "" (extraction_prompt "").
Proof.
  destruct (prompt_holds_schema_and_text "") as [Hcols Htext].
  split; [|exact Htext].
  apply Hcols. apply In_COLUMNS_dec. reflexivity.
Defined.

(** ** The decoder and the pattern on samples *)

Example json_loads_nested :
  json_loads ("{" ++ q "k" ++ ": [1, {" ++ q "c" ++ ": 2.5e3}, null], "
                  ++ q "z" ++ " : [ ] }")%string =
  Some (JDict [("k", JList [JInt 1; JDict [("c", JFloat "2.5e3")]; JNull]);
               ("z", JList [])]).
Proof. vm_compute. reflexivity. Qed.

Example json_loads_repeated_key :
  json_loads ("{" ++ q "a" ++ ":1," ++ q "b" ++ ":2," ++ q "a" ++ ":3}")%string =
  Some (JDict [("a", JInt 3); ("b", JInt 2)]).
Proof. vm_compute. reflexivity. Qed.

Example json_loads_escapes :
  json_loads (q "Rs. \u20b9\t\u0041")%string =
  Some (JStr ("Rs. " ++ rupee ++ String "009"%char "A")%string).
Proof. vm_compute. reflexivity. Qed.

Example json_loads_rejects :
  json_loads "[1,]" = None /\ json_loads "42 x" = None /\
  json_loads "01" = None /\ json_loads "nul" = None /\
  json_loads "" = None /\ json_loads "{'a': 1}" = None.
Proof. repeat split; vm_compute; reflexivity. Qed.

Example extract_json_block_greedy :
  _extract_json_block "see [1] and [2] or {3}" = Some "[1] and [2]"%string /\
  _extract_json_block "{ [ }" = Some "{ [ }"%string /\
  _extract_json_block "[ { }" = Some "{ }"%string /\
  _extract_json_block "] [ } {" = None.
Proof. repeat split; vm_compute; reflexivity. Qed.

(** ** The Response Parser *)

Lemma mem_char_cons (c a : ascii) (s : string) :
  mem_char c (String a s) = (c =? a)%char || mem_char c s.
Proof. reflexivity. Qed.

Lemma upto_last_None (c : ascii) (s : string) :
  upto_last c s = None -> mem_char c s = false.
Proof.
  induction s as [|a r IH]; simpl; intros H; [reflexivity|].
  destruct (upto_last c r) as [p|]; [discriminate|].
  destruct (a =? c)%char eqn:Eac; [discriminate|].
  rewrite mem_char_cons, Ascii.eqb_sym, Eac. simpl. now apply IH.
Qed.

Lemma upto_last_Some (c : ascii) (s p : string) :
  upto_last c s = Some p ->
  exists body post,
    p = (body ++ String c "")%string /\ s = (p ++ post)%string /\
    mem_char c post = false.
Proof.
  revert p. induction s as [|a r IH]; simpl; intros p H; [discriminate|].
  destruct (upto_last c r) as [p'|] eqn:E.
  - injection H as <-.
    destruct (IH p' eq_refl) as (body & post & -> & -> & Hm).
    now exists (String a body), post.
  - destruct (a =? c)%char eqn:Eac; [|discriminate].
    injection H as <-. apply Ascii.eqb_eq in Eac as ->.
    exists EmptyString, r. repeat split. now apply upto_last_None.
Qed.

(** The search, position by position. *)
Lemma extract_json_block_cons (a : ascii) (r : string) :
  _extract_json_block (String a r) =
  match closer_of a with
  | Some c =>
      match upto_last c r with
      | Some body => Some (String a body)
      | None => _extract_json_block r
      end
  | None => _extract_json_block r
  end.
Proof.
  simpl. unfold closer_of.
  destruct (a =? "[")%char; [reflexivity|].
  destruct (a =? "{")%char; reflexivity.
Qed.

Lemma extract_json_block_Some (text block : string) :
  _extract_json_block text = Some block ->
  exists pre o c body post,
    closer_of o = Some c /\
    text = (pre ++ block ++ post)%string /\
    block = String o (body ++ String c "") /\
    mem_char c post = false /\
    no_block_start pre (block ++ post).
Proof.
  induction text as [|a r IH]; [discriminate|].
  rewrite extract_json_block_cons.
  destruct (closer_of a) as [c|] eqn:Ec.
  - destruct (upto_last c r) as [p|] eqn:Eu.
    + intros [= <-].
      destruct (upto_last_Some _ _ _ Eu) as (body & post & -> & -> & Hm).
      exists EmptyString, a, c, body, post. simpl. tauto.
    + intros H. destruct (IH H) as (pre & o & c' & body & post & Ho & -> & -> & Hm & Hpre).
      exists (String a pre), o, c', body, post.
      repeat split; try assumption.
      intros c0 Hc0. rewrite Ec in Hc0. injection Hc0 as <-.
      now apply upto_last_None.
  - intros H. destruct (IH H) as (pre & o & c' & body & post & Ho & -> & -> & Hm & Hpre).
    exists (String a pre), o, c', body, post.
    repeat split; try assumption.
    intros c0 Hc0. congruence.
Qed.

Lemma extract_json_block_None (text : string) :
  _extract_json_block text = None -> no_block_start text "".
Proof.
  induction text as [|a r IH]; [easy|].
  rewrite extract_json_block_cons. simpl.
  destruct (closer_of a) as [c|] eqn:Ec.
  - destruct (upto_last c r) as [p|] eqn:Eu; [discriminate|].
    intros H. split; [|now apply IH].
    intros c0 [= <-]. rewrite str_app_nil_r. now apply upto_last_None.
  - intros H. split; [discriminate|now apply IH].
Qed.

Lemma extract_json_block_truthy (text block : string) :
  _extract_json_block text = Some block -> str_truthy block = true.
Proof.
  intros H.
  destruct (extract_json_block_Some _ _ H) as (pre & o & c & body & post & _ & _ & Hb & _).
  now rewrite Hb.
Qed.

Lemma attempt_decode_whole (text : string) (v : json) :
  json_loads text = Some v -> attempt_decode text = Some v.
Proof. unfold attempt_decode. now intros ->. Qed.

Lemma attempt_decode_fallback (text : string) :
  json_loads text = None -> attempt_decode text = block_decode text.
Proof.
  unfold attempt_decode, block_decode. intros ->.
  destruct (_extract_json_block text) as [block|] eqn:E; [|reflexivity].
  now rewrite (extract_json_block_truthy _ _ E).
Qed.

(** ** The Model Invoker *)

Section Invoker.

Variable llm : nat -> string -> result string.
Variable prompt : string.

Lemma generate_return (retries calls : nat) (text : string) (v : json) :
  llm calls prompt = Ok text ->
  attempt_decode text = Some v ->
  generate_json_from_gemini llm prompt (S retries) calls = (Ok v, S calls).
Proof.
  intros Hr Hd. simpl. unfold bind, invoke. now rewrite Hr, Hd.
Qed.

Lemma generate_retry (retries calls : nat) (text : string) :
  llm calls prompt = Ok text ->
  attempt_decode text = None ->
  generate_json_from_gemini llm prompt (S retries) calls =
  generate_json_from_gemini llm prompt retries (S calls).
Proof.
  intros Hr Hd. simpl. unfold bind, invoke. now rewrite Hr, Hd.
Qed.

Lemma generate_all_fail (retries : nat) :
  forall calls,
    (forall i, i < retries -> fails_at llm prompt calls i) ->
    generate_json_from_gemini llm prompt retries calls =
    (Ok (JList []), calls + retries).
Proof.
  induction retries as [|n IH]; intros calls Hfail.
  - simpl. unfold ret. now rewrite Nat.add_0_r.
  - destruct (Hfail 0) as (text & Hr & Hd); [lia|].
    rewrite Nat.add_0_r in Hr.
    rewrite (generate_retry _ _ _ Hr Hd), IH.
    + f_equal. lia.
    + intros i Hi. destruct (Hfail (S i)) as (t & Ht & Hdt); [lia|].
      exists t. split; [|exact Hdt].
      now replace (S calls + i) with (calls + S i) by lia.
Qed.

Lemma generate_first_success (k : nat) :
  forall retries calls text v,
    k < retries ->
    (forall i, i < k -> fails_at llm prompt calls i) ->
    llm (calls + k) prompt = Ok text ->
    attempt_decode text = Some v ->
    generate_json_from_gemini llm prompt retries calls = (Ok v, calls + k + 1).
Proof.
  induction k as [|k IH]; intros retries calls text v Hk Hfail Hr Hd;
    (destruct retries as [|n]; [lia|]).
  - rewrite Nat.add_0_r in Hr.
    rewrite (generate_return _ _ _ _ Hr Hd). f_equal. lia.
  - destruct (Hfail 0) as (t0 & Hr0 & Hd0); [lia|].
    rewrite Nat.add_0_r in Hr0.
    rewrite (generate_retry _ _ _ Hr0 Hd0).
    rewrite (IH n (S calls) text v); [f_equal; lia|lia| |
      now replace (S calls + k) with (calls + S k) by lia|exact Hd].
    intros i Hi. destruct (Hfail (S i)) as (t & Ht & Hdt); [lia|].
    exists t. split; [|exact Hdt].
    now replace (S calls + i) with (calls + S i) by lia.
Qed.

End Invoker.

(** C5 (as amended): for every response text, an attempt first decodes
    the whole text and returns its value; only when that fails does it
    decode the block found by the pattern, which runs from the first
    opening bracket or brace that has a closing partner after it (an
    opening character without one is passed over) to the last such
    partner in the text; when both fail the attempt yields nothing, no
    exception is raised, and an invocation made of that single attempt
    returns the empty sequence.  The prose-wrapped response of the example
    does not decode as a whole, its block is the bracketed array, and the
    first attempt returns the one-record sequence. *)
Theorem response_parser_two_steps :
  (forall text v, json_loads text = Some v -> attempt_decode text = Some v) /\
  (forall text, json_loads text = None ->
                attempt_decode text = block_decode text) /\
  (forall text block,
      _extract_json_block text = Some block ->
      exists pre o c body post,
        closer_of o = Some c /\
        text = (pre ++ block ++ post)%string /\
        block = String o (body ++ String c "") /\
        mem_char c post = false /\
        no_block_start pre (block ++ post)) /\
  (forall text, _extract_json_block text = None -> no_block_start text "") /\
  (forall llm prompt calls text,
      llm calls prompt = Ok text ->
      json_loads text = None -> block_decode text = None ->
      attempt_decode text = None /\
      generate_json_from_gemini llm prompt 1 calls = (Ok (JList []), S calls)) /\
  (json_loads prose_reply = None /\
   _extract_json_block prose_reply = Some prose_block /\
   attempt_decode prose_reply = Some prose_value /\
   forall llm prompt retries calls,
     llm calls prompt = Ok prose_reply ->
     generate_json_from_gemini llm prompt (S retries) calls =
     (Ok prose_value, S calls)).
Proof.
  split; [exact attempt_decode_whole|].
  split; [exact attempt_decode_fallback|].
  split; [exact extract_json_block_Some|].
  split; [exact extract_json_block_None|].
  split.
  - intros llm prompt calls text Hr Hw Hb.
    assert (attempt_decode text = None) as Hd
        by now rewrite attempt_decode_fallback.
    split; [exact Hd|].
    rewrite (generate_retry _ _ _ _ _ Hr Hd). reflexivity.
  - assert (attempt_decode prose_reply = Some prose_value) as Hd
        by (vm_compute; reflexivity).
    split; [vm_compute; reflexivity|].
    split; [vm_compute; reflexivity|].
    split; [exact Hd|].
    intros llm prompt retries calls Hr.
    now apply (generate_return _ _ _ _ prose_reply).
Qed.

Lemma response_parser_two_steps_witness :
  attempt_decode "[1, 2]" = Some (JList [JInt 1; JInt 2]) /\
  attempt_decode "rows: [1, 2]." = block_decode "rows: [1, 2]." /\
  (exists pre o c body post,
      closer_of o = Some c /\
      "a ] { b [ } c } d"%string = (pre ++ "{ b [ } c }" ++ post)%string /\
      "{ b [ } c }"%string = String o (body ++ String c "") /\
      mem_char c post = false /\
      no_block_start pre ("{ b [ } c }" ++ post)) /\
  no_block_start "} [ no closing" "" /\
  (attempt_decode "no data" = None /\
   generate_json_from_gemini (always "no data") "p" 1 0 = (Ok (JList []), 1)) /\
  generate_json_from_gemini (always prose_reply) "p" 3 0 = (Ok prose_value, 1).
Proof.
  destruct response_parser_two_steps
    as (Hwhole & Hfall & Hblock & Hnone & Hfail & _ & _ & _ & Hprose).
  split; [apply Hwhole; reflexivity|].
  split; [apply Hfall; reflexivity|].
  split; [apply Hblock; reflexivity|].
  split; [apply Hnone; reflexivity|].
  split; [apply Hfail; reflexivity|].
  apply Hprose. reflexivity.
Defined.

(** Where the first opening character of the text has its partner after
    it, the pattern's block is the span that starts there. *)
Lemma first_opener_block_agrees (text block : string) :
  first_opener_block text = Some block ->
  _extract_json_block text = Some block.
Proof.
  induction text as [|a r IH]; [discriminate|].
  rewrite extract_json_block_cons. simpl.
  destruct (closer_of a) as [c|]; [|exact IH].
  destruct (upto_last c r) as [body|]; [trivial|discriminate].
Qed.

(** C5, as first stated, starts the block at the first opening bracket or
    brace of the text.  In this reply the first one, a bracket, is never
    closed, so that rule finds no block; the pattern passes over it,
    takes the first object as the block, and the invoker returns that
    object after one call. *)
Lemma response_parser_first_opener_counterexample :
  json_loads truncated_reply = None /\
  first_opener_block truncated_reply = None /\
  _extract_json_block truncated_reply = Some ("{" ++ q "a" ++ ": 1}")%string /\
  attempt_decode truncated_reply = Some (JDict [("a", JInt 1)]) /\
  generate_json_from_gemini (always truncated_reply) "p" 3 0 =
  (Ok (JDict [("a", JInt 1)]), 1).
Proof. repeat split; vm_compute; reflexivity. Qed.

(** C3, as first stated, returns the value of the first attempt whose
    decoded value is non-empty.  Here the first answer decodes to the empty
    array and the second to one record: the invoker returns the empty
    array after one call. *)
Lemma invoker_nonempty_counterexample :
  attempt_decode "[]" = Some (JList []) /\
  attempt_decode prose_block = Some prose_value /\
  generate_json_from_gemini empty_then_rows "p" 3 0 = (Ok (JList []), 1) /\
  generate_json_from_gemini empty_then_rows "p" 3 0 <> (Ok prose_value, 2).
Proof.
  split; [vm_compute; reflexivity|].
  split; [vm_compute; reflexivity|].
  split; [vm_compute; reflexivity|].
  vm_compute. discriminate.
Qed.

(** C3 (as amended): for every prompt and attempt cap, the invoker calls
    the model once per attempt; on the first attempt whose response
    decodes, as a whole or through its block, it returns the decoded
    value, empty or not, with no further call; if no attempt up to the cap
    decodes, it returns the empty sequence, raises nothing, and has made
    exactly [max_attempts] calls. *)
Theorem invoker_first_decode
        (llm : nat -> string -> result string) (prompt : string)
        (max_attempts calls : nat) :
  (forall k text v,
      k < max_attempts ->
      (forall i, i < k -> fails_at llm prompt calls i) ->
      llm (calls + k) prompt = Ok text ->
      attempt_decode text = Some v ->
      generate_json_from_gemini llm prompt max_attempts calls =
      (Ok v, calls + k + 1)) /\
  ((forall i, i < max_attempts -> fails_at llm prompt calls i) ->
   generate_json_from_gemini llm prompt max_attempts calls =
   (Ok (JList []), calls + max_attempts)).
Proof.
  split.
  - intros k text v Hk Hfail Hr Hd.
    now apply (generate_first_success llm prompt k max_attempts calls text v).
  - apply generate_all_fail.
Qed.

Lemma invoker_first_decode_witness :
  generate_json_from_gemini (prose_then 2 prose_reply) "p" 3 0 =
  (Ok prose_value, 0 + 2 + 1) /\
  generate_json_from_gemini (always "no data") "p" 3 0 = (Ok (JList []), 0 + 3).
Proof.
  split.
  - apply (proj1 (invoker_first_decode (prose_then 2 prose_reply) "p" 3 0)
                 2 prose_reply prose_value).
    + lia.
    + intros i Hi. exists "no data"%string.
      destruct i as [|[|i]]; [split; reflexivity|split; reflexivity|lia].
    + reflexivity.
    + reflexivity.
  - apply (proj2 (invoker_first_decode (always "no data") "p" 3 0)).
    intros i _. exists "no data"%string. split; reflexivity.
Defined.

(** C8: the invoker returns on any response whose text decodes, whatever
    the value: when the first response is the empty array, the empty
    object, null or a bare scalar, that value is returned after exactly one
    model call, and no retry is made. *)
Theorem invoker_returns_any_decode :
  (forall llm prompt retries calls text v,
      llm calls prompt = Ok text ->
      json_loads text = Some v ->
      generate_json_from_gemini llm prompt (S retries) calls = (Ok v, S calls)) /\
  json_loads "[]" = Some (JList []) /\
  json_loads "{}" = Some (JDict []) /\
  json_loads "null" = Some JNull /\
  json_loads "42" = Some (JInt 42) /\
  json_loads (q "done") = Some (JStr "done").
Proof.
  split.
  - intros llm prompt retries calls text v Hr Hv.
    apply (generate_return llm prompt retries calls text v Hr).
    now apply attempt_decode_whole.
  - repeat split; vm_compute; reflexivity.
Qed.

Lemma invoker_returns_any_decode_witness :
  generate_json_from_gemini (always "[]") "p" 3 0 = (Ok (JList []), 1) /\
  generate_json_from_gemini (always "{}") "p" 3 0 = (Ok (JDict []), 1) /\
  generate_json_from_gemini (always "null") "p" 3 0 = (Ok JNull, 1) /\
  generate_json_from_gemini (always "42") "p" 3 0 = (Ok (JInt 42), 1).
Proof.
  destruct invoker_returns_any_decode as (H & _).
  repeat split; apply H; reflexivity.
Defined.

(** ** The Batch Coordinator *)

Section Batch.

Variable llm : nat -> string -> result string.
Variable load : list Byte.byte -> result string.

Lemma process_loop_cons f files rows0 errs0 calls :
  process_loop llm load (f :: files) rows0 errs0 calls =
  match process_file llm load f calls with
  | (Ok [], calls1) =>
      process_loop llm load files rows0 (errs0 ++ [(name f, NO_ITEMS)]) calls1
  | (Ok recs, calls1) =>
      process_loop llm load files (rows0 ++ recs) errs0 calls1
  | (Raise msg, calls1) =>
      process_loop llm load files rows0 (errs0 ++ [(name f, msg)]) calls1
  end.
Proof.
  simpl. unfold bind, try_except.
  destruct (process_file llm load f calls) as [[[|r recs]|msg] calls1];
    reflexivity.
Qed.

(** The loop only ever extends its accumulators, and what it adds is
    what the document-by-document description asks for. *)
Lemma process_loop_batch files :
  forall rows0 errs0 calls,
  exists rows errs calls',
    process_loop llm load files rows0 errs0 calls =
    (Ok (rows0 ++ rows, errs0 ++ errs), calls') /\
    batch_result llm load NO_ITEMS files calls rows errs calls'.
Proof.
  induction files as [|f files IH]; intros rows0 errs0 calls.
  - exists [], [], calls. split; [|constructor].
    simpl. unfold ret. now rewrite !app_nil_r.
  - rewrite process_loop_cons.
    destruct (process_file llm load f calls) as [[[|r recs]|msg] calls1] eqn:Ef.
    + destruct (IH rows0 (errs0 ++ [(name f, NO_ITEMS)]) calls1)
        as (rows & errs & calls' & -> & Hb).
      exists rows, ((name f, NO_ITEMS) :: errs), calls'.
      split; [now rewrite <- app_assoc|].
      now apply batch_empty with (calls1 := calls1).
    + destruct (IH (rows0 ++ r :: recs) errs0 calls1)
        as (rows & errs & calls' & -> & Hb).
      exists ((r :: recs) ++ rows), errs, calls'.
      split; [now rewrite <- app_assoc|].
      apply batch_records with (calls1 := calls1); [exact Ef|discriminate|exact Hb].
    + destruct (IH rows0 (errs0 ++ [(name f, msg)]) calls1)
        as (rows & errs & calls' & -> & Hb).
      exists rows, ((name f, msg) :: errs), calls'.
      split; [now rewrite <- app_assoc|].
      now apply batch_raises with (calls1 := calls1).
Qed.

Lemma process_uploaded_batch files calls :
  exists rows errs calls',
    process_uploaded_pdfs llm load files calls = (Ok (rows, errs), calls') /\
    batch_result llm load NO_ITEMS files calls rows errs calls'.
Proof.
  destruct (process_loop_batch files [] [] calls) as (rows & errs & calls' & H & Hb).
  now exists rows, errs, calls'.
Qed.

(** The loop over [pre ++ post] is the loop over [pre] followed by the
    loop over [post] on the accumulators and the call count it left. *)
Lemma process_loop_app pre post :
  forall rows0 errs0 calls rows1 errs1 calls1,
    process_loop llm load pre rows0 errs0 calls = (Ok (rows1, errs1), calls1) ->
    process_loop llm load (pre ++ post) rows0 errs0 calls =
    process_loop llm load post rows1 errs1 calls1.
Proof.
  induction pre as [|f pre IH]; intros rows0 errs0 calls rows1 errs1 calls1 H.
  - simpl in H. unfold ret in H. now injection H as <- <- <-.
  - rewrite <- app_comm_cons, process_loop_cons.
    rewrite process_loop_cons in H.
    destruct (process_file llm load f calls) as [[[|r recs]|msg] c];
      now apply IH.
Qed.

(** A failure of the text extraction is a failure of the document, and
    it happens before any model call. *)
Lemma process_file_extraction_fails f bytes msg calls :
  read f = Ok bytes -> load bytes = Raise msg ->
  process_file llm load f calls = (Raise msg, calls).
Proof.
  intros Hr Hl. unfold process_file, process_single_pdf_bytes, bind, lift.
  now rewrite Hr, Hl.
Qed.

Lemma process_file_read_fails f msg calls :
  read f = Raise msg ->
  process_file llm load f calls = (Raise msg, calls).
Proof.
  intros Hr. unfold process_file, bind, lift. now rewrite Hr.
Qed.

End Batch.

(** C2, as first stated, records the message "no records extracted" for a
    document without records.  The message the loop records is
    [NO_ITEMS]: here the model answers with the empty array, and the
    outcome is not the one described with the stated message. *)
Lemma batch_message_counterexample :
  process_file (always "[]") sample_load first_pdf 0 = (Ok [], 1) /\
  process_uploaded_pdfs (always "[]") sample_load [first_pdf] 0 =
  (Ok ([], [("first.pdf", "No material items extracted (empty response).")]), 1) /\
  ~ batch_result (always "[]") sample_load "no records extracted" [first_pdf] 0
      [] [("first.pdf", "No material items extracted (empty response).")] 1.
Proof.
  assert (process_file (always "[]") sample_load first_pdf 0 = (Ok [], 1)) as Hf
      by (vm_compute; reflexivity).
  split; [exact Hf|]. split; [vm_compute; reflexivity|].
  intros H. inversion H; subst; congruence.
Qed.

(** C2 (as amended): for every ordered sequence of documents the batch
    loop returns records and errors that follow the documents in order: a
    document whose processing raises leaves the pair of its name and the
    exception's message, a document that yields no record leaves the pair
    of its name and "No material items extracted (empty response).", any
    other document leaves all its records; the loop goes on to the next
    document in every case.  With three documents, the second failing in
    text extraction and the others yielding records, the result is the
    records of the first and the third and the one error of the second. *)
Theorem batch_isolates_documents :
  (forall llm load files calls,
      exists rows errs calls',
        process_uploaded_pdfs llm load files calls = (Ok (rows, errs), calls') /\
        batch_result llm load NO_ITEMS files calls rows errs calls') /\
  (forall llm load d1 d2 d3 calls recs1 calls1 bytes msg recs3 calls3,
      process_file llm load d1 calls = (Ok recs1, calls1) -> recs1 <> [] ->
      read d2 = Ok bytes -> load bytes = Raise msg ->
      process_file llm load d3 calls1 = (Ok recs3, calls3) -> recs3 <> [] ->
      process_uploaded_pdfs llm load [d1; d2; d3] calls =
      (Ok (recs1 ++ recs3, [(name d2, msg)]), calls3)).
Proof.
  split; [exact process_uploaded_batch|].
  intros llm load d1 d2 d3 calls recs1 calls1 bytes msg recs3 calls3
         H1 Hne1 Hread Hload H3 Hne3.
  unfold process_uploaded_pdfs.
  rewrite process_loop_cons, H1.
  destruct recs1 as [|r1 recs1]; [contradiction|].
  rewrite process_loop_cons,
    (process_file_extraction_fails llm load d2 bytes msg calls1 Hread Hload).
  rewrite process_loop_cons, H3.
  destruct recs3 as [|r3 recs3]; [contradiction|].
  reflexivity.
Qed.

Lemma batch_isolates_documents_witness :
  process_uploaded_pdfs (always sample_reply) sample_load
                        [first_pdf; broken_pdf; third_pdf] 0 =
  (Ok ([project_onto COLUMNS sample_candidate] ++
       [project_onto COLUMNS sample_candidate],
       [(name broken_pdf, "Cannot read an empty file"%string)]), 2).
Proof.
  apply (proj2 batch_isolates_documents (always sample_reply) sample_load
               first_pdf broken_pdf third_pdf 0
               [project_onto COLUMNS sample_candidate] 1 []
               "Cannot read an empty file"
               [project_onto COLUMNS sample_candidate] 2).
  - vm_compute. reflexivity.
  - discriminate.
  - reflexivity.
  - reflexivity.
  - vm_compute. reflexivity.
  - discriminate.
Defined.

(** C10: [process_uploaded_pdfs] returns a pair of a record list and an
    error list for every sequence of uploaded files, whatever the files,
    the text extraction and the model do; an exception raised while a
    file is read or while the pipeline runs on it is the failure of that
    file alone, and it becomes the pair of the file's name and the
    exception's message in the error list, wherever the file stands in the
    sequence. *)
Theorem batch_never_raises :
  (forall llm load files calls,
      exists rows errs calls',
        process_uploaded_pdfs llm load files calls = (Ok (rows, errs), calls')) /\
  (forall llm load f calls msg,
      read f = Raise msg ->
      process_file llm load f calls = (Raise msg, calls)) /\
  (forall llm load f calls bytes msg calls',
      read f = Ok bytes ->
      process_single_pdf_bytes llm load bytes calls = (Raise msg, calls') ->
      process_file llm load f calls = (Raise msg, calls')) /\
  (forall llm load pre f post calls,
      exists rows1 errs1 calls1,
        process_uploaded_pdfs llm load pre calls = (Ok (rows1, errs1), calls1) /\
        forall msg calls2,
          process_file llm load f calls1 = (Raise msg, calls2) ->
          exists rows errs2 calls3,
            process_uploaded_pdfs llm load (pre ++ f :: post) calls =
            (Ok (rows, errs1 ++ (name f, msg) :: errs2), calls3)).
Proof.
  split; [|split; [|split]].
  - intros llm load files calls.
    destruct (process_uploaded_batch llm load files calls)
      as (rows & errs & calls' & H & _).
    now exists rows, errs, calls'.
  - intros llm load f calls msg Hr. now apply process_file_read_fails.
  - intros llm load f calls bytes msg calls' Hr Hp.
    unfold process_file, bind, lift. now rewrite Hr.
  - intros llm load pre f post calls.
    destruct (process_uploaded_batch llm load pre calls)
      as (rows1 & errs1 & calls1 & Hpre & _).
    exists rows1, errs1, calls1. split; [exact Hpre|].
    intros msg calls2 Hf.
    unfold process_uploaded_pdfs in *.
    rewrite (process_loop_app llm load pre (f :: post) _ _ _ _ _ _ Hpre).
    rewrite process_loop_cons, Hf.
    destruct (process_loop_batch llm load post rows1 (errs1 ++ [(name f, msg)]) calls2)
      as (rows & errs & calls3 & -> & _).
    exists (rows1 ++ rows), errs, calls3.
    now rewrite <- app_assoc.
Qed.

Lemma batch_never_raises_witness :
  process_file (always sample_reply) sample_load closed_pdf 0 =
  (Raise "I/O operation on closed file.", 0) /\
  process_file unavailable sample_load third_pdf 0 =
  (Raise "503 service unavailable", 1) /\
  exists rows errs2 calls3,
    process_uploaded_pdfs unavailable sample_load
                          ([closed_pdf] ++ third_pdf :: [broken_pdf]) 0 =
    (Ok (rows,
         [("closed.pdf", "I/O operation on closed file."%string)] ++
         (name third_pdf, "503 service unavailable"%string) :: errs2), calls3).
Proof.
  destruct batch_never_raises as (_ & Hread & Hpipe & Hpos).
  split; [apply Hread; reflexivity|].
  split; [apply (Hpipe _ _ _ _ [Byte.x25; Byte.x44]); reflexivity|].
  destruct (Hpos unavailable sample_load [closed_pdf] third_pdf [broken_pdf] 0)
    as (rows1 & errs1 & calls1 & Hpre & Hrest).
  vm_compute in Hpre. injection Hpre as <- <- <-.
  apply (Hrest "503 service unavailable"%string 1). reflexivity.
Defined.

(** * Further properties of the pipeline *)

(** ** Cost and failure of the Model Invoker *)

Lemma generate_calls llm prompt (retries : nat) :
  forall calls,
    calls <= snd (generate_json_from_gemini llm prompt retries calls)
          <= calls + retries /\
    (0 < retries ->
     calls < snd (generate_json_from_gemini llm prompt retries calls)).
Proof.
  induction retries as [|n IH]; intros calls.
  - simpl. split; lia.
  - split; [|intros _];
      simpl; unfold bind, invoke;
      destruct (llm calls prompt) as [text|msg]; simpl; try lia;
      destruct (attempt_decode text) as [v|]; simpl; try lia;
      destruct (IH (S calls)) as (Hb & _); lia.
Qed.

(** X1: whatever the model does (answer, answer garbage, raise), the
    invoker makes at most [retries] model calls, at least one when
    [retries] is positive, and none when it is zero, in which case it
    returns the empty sequence. *)
Theorem invoker_call_bound
        (llm : nat -> string -> result string) (prompt : string)
        (retries calls : nat) :
  calls <= snd (generate_json_from_gemini llm prompt retries calls)
        <= calls + retries /\
  (0 < retries ->
   calls < snd (generate_json_from_gemini llm prompt retries calls)) /\
  (retries = 0 ->
   generate_json_from_gemini llm prompt retries calls = (Ok (JList []), calls)).
Proof.
  destruct (generate_calls llm prompt retries calls) as [Hb Hpos].
  split; [exact Hb|]. split; [exact Hpos|].
  intros ->. reflexivity.
Qed.

Lemma invoker_call_bound_witness :
  0 < snd (generate_json_from_gemini (always "no data") "p" 3 0) /\
  generate_json_from_gemini (always "[1]") "p" 0 7 = (Ok (JList []), 7).
Proof.
  split.
  - apply (proj1 (proj2 (invoker_call_bound (always "no data") "p" 3 0))). lia.
  - apply (proj2 (proj2 (invoker_call_bound (always "[1]") "p" 0 7))). reflexivity.
Defined.

Lemma generate_raise llm prompt (retries calls : nat) (msg : string) :
  llm calls prompt = Raise msg ->
  generate_json_from_gemini llm prompt (S retries) calls = (Raise msg, S calls).
Proof.
  intros Hr. simpl. unfold bind, invoke. now rewrite Hr.
Qed.

Lemma generate_raise_after llm prompt (k : nat) :
  forall retries calls msg,
    k < retries ->
    (forall i, i < k -> fails_at llm prompt calls i) ->
    llm (calls + k) prompt = Raise msg ->
    generate_json_from_gemini llm prompt retries calls = (Raise msg, calls + k + 1).
Proof.
  induction k as [|k IH]; intros retries calls msg Hk Hfail Hr;
    (destruct retries as [|n]; [lia|]).
  - rewrite Nat.add_0_r in Hr. rewrite (generate_raise _ _ _ _ _ Hr).
    f_equal. lia.
  - destruct (Hfail 0) as (t0 & Hr0 & Hd0); [lia|].
    rewrite Nat.add_0_r in Hr0.
    rewrite (generate_retry _ _ _ _ _ Hr0 Hd0).
    rewrite (IH n (S calls) msg); [f_equal; lia|lia| |
      now replace (S calls + k) with (calls + S k) by lia].
    intros i Hi. destruct (Hfail (S i)) as (t & Ht & Hdt); [lia|].
    exists t. split; [|exact Hdt].
    now replace (S calls + i) with (calls + S i) by lia.
Qed.

Lemma process_file_unfold llm load f bytes text calls :
  read f = Ok bytes -> load bytes = Ok text ->
  process_file llm load f calls =
  match generate_json_from_gemini llm (extraction_prompt text) 3 calls with
  | (Ok v, calls') => (Ok (clean_rows (normalize_extracted v)), calls')
  | (Raise msg, calls') => (Raise msg, calls')
  end.
Proof.
  intros Hr Hl. unfold process_file, process_single_pdf_bytes, bind, lift, ret.
  rewrite Hr, Hl.
  destruct (generate_json_from_gemini llm (extraction_prompt text) 3 calls)
    as [[v|msg] c]; reflexivity.
Qed.

Lemma process_uploaded_single llm load f calls :
  process_uploaded_pdfs llm load [f] calls =
  match process_file llm load f calls with
  | (Ok [], calls1) => (Ok ([], [(name f, NO_ITEMS)]), calls1)
  | (Ok recs, calls1) => (Ok (recs, []), calls1)
  | (Raise msg, calls1) => (Ok ([], [(name f, msg)]), calls1)
  end.
Proof.
  unfold process_uploaded_pdfs. rewrite process_loop_cons.
  destruct (process_file llm load f calls) as [[[|r recs]|msg] c]; reflexivity.
Qed.

(** X2: the model call is outside the [try] of the invoker, so an
    exception of the model leaves it: when the attempts before the [k]-th
    get text that does not decode and the [k]-th call raises, the invoker
    raises the same exception after [k + 1] calls, without using the
    attempts that are left; in the batch the document then counts as
    failed, with the message of the model's exception. *)
Theorem model_error_fails_document
        (llm : nat -> string -> result string)
        (load : list Byte.byte -> result string) :
  (forall prompt retries calls k msg,
      k < retries ->
      (forall i, i < k -> fails_at llm prompt calls i) ->
      llm (calls + k) prompt = Raise msg ->
      generate_json_from_gemini llm prompt retries calls =
      (Raise msg, calls + k + 1)) /\
  (forall f bytes text calls k msg,
      read f = Ok bytes -> load bytes = Ok text ->
      k < 3 ->
      (forall i, i < k -> fails_at llm (extraction_prompt text) calls i) ->
      llm (calls + k) (extraction_prompt text) = Raise msg ->
      process_uploaded_pdfs llm load [f] calls =
      (Ok ([], [(name f, msg)]), calls + k + 1)).
Proof.
  split.
  - intros prompt retries calls k msg. apply generate_raise_after.
  - intros f bytes text calls k msg Hr Hl Hk Hfail Hraise.
    rewrite process_uploaded_single, (process_file_unfold _ _ _ _ _ _ Hr Hl).
    now rewrite (generate_raise_after llm _ k 3 calls msg Hk Hfail Hraise).
Qed.

Lemma model_error_fails_document_witness :
  generate_json_from_gemini (prose_then_raise 1 "quota exceeded") "p" 3 0 =
  (Raise "quota exceeded", 0 + 1 + 1) /\
  process_uploaded_pdfs (prose_then_raise 1 "quota exceeded") sample_load
                        [first_pdf] 0 =
  (Ok ([], [(name first_pdf, "quota exceeded"%string)]), 0 + 1 + 1).
Proof.
  destruct (model_error_fails_document
              (prose_then_raise 1 "quota exceeded") sample_load) as [Hinv Hdoc].
  assert (forall p i, i < 1 ->
                      fails_at (prose_then_raise 1 "quota exceeded") p 0 i) as Hf.
  { intros p i Hi. exists "no data"%string.
    destruct i; [split; reflexivity|lia]. }
  split.
  - apply Hinv; [lia|apply Hf|reflexivity].
  - apply (Hdoc first_pdf [Byte.x25; Byte.x50] "SHIPPING BILL"%string);
      [reflexivity|reflexivity|lia|apply Hf|reflexivity].
Defined.

Lemma process_file_calls llm load f calls :
  calls <= snd (process_file llm load f calls) <= calls + 3.
Proof.
  unfold process_file, process_single_pdf_bytes, bind, lift, ret.
  destruct (read f) as [bytes|msg]; cbv beta iota; [|simpl; lia].
  destruct (load bytes) as [text|msg]; cbv beta iota; [|simpl; lia].
  pose proof (proj1 (generate_calls llm (extraction_prompt text) 3 calls)) as Hb.
  destruct (generate_json_from_gemini llm (extraction_prompt text) 3 calls)
    as [[v|msg] c]; simpl in *; lia.
Qed.

Lemma process_loop_calls llm load files :
  forall rows0 errs0 calls,
    calls <= snd (process_loop llm load files rows0 errs0 calls)
          <= calls + 3 * length files.
Proof.
  induction files as [|f files IH]; intros rows0 errs0 calls.
  - simpl. lia.
  - rewrite process_loop_cons.
    pose proof (process_file_calls llm load f calls) as Hf.
    destruct (process_file llm load f calls) as [[[|r recs]|msg] c];
      simpl in Hf;
      match goal with
      | |- context [process_loop llm load files ?r ?e c] =>
          specialize (IH r e c)
      end; simpl length; lia.
Qed.

(** X3: a document costs at most three model calls and a batch at most
    three per file, whatever the files, the text extraction and the model
    do; a file whose [read()] or whose text extraction raises costs no
    model call at all. *)
Theorem batch_call_budget
        (llm : nat -> string -> result string)
        (load : list Byte.byte -> result string) :
  (forall f calls,
      calls <= snd (process_file llm load f calls) <= calls + 3) /\
  (forall files calls,
      calls <= snd (process_uploaded_pdfs llm load files calls)
            <= calls + 3 * length files) /\
  (forall f calls msg,
      read f = Raise msg ->
      snd (process_file llm load f calls) = calls) /\
  (forall f calls bytes msg,
      read f = Ok bytes -> load bytes = Raise msg ->
      snd (process_file llm load f calls) = calls).
Proof.
  split; [apply process_file_calls|].
  split; [intros files calls; apply process_loop_calls|].
  split.
  - intros f calls msg Hr. now rewrite (process_file_read_fails _ _ _ _ _ Hr).
  - intros f calls bytes msg Hr Hl.
    now rewrite (process_file_extraction_fails _ _ _ _ _ _ Hr Hl).
Qed.

Lemma batch_call_budget_witness :
  snd (process_file unavailable sample_load closed_pdf 5) = 5 /\
  snd (process_file unavailable sample_load broken_pdf 5) = 5.
Proof.
  destruct (batch_call_budget unavailable sample_load) as (_ & _ & Hread & Hload).
  split.
  - apply (Hread closed_pdf 5 "I/O operation on closed file."%string). reflexivity.
  - apply (Hload broken_pdf 5 [] "Cannot read an empty file"%string); reflexivity.
Defined.

(** ** Accounting and composition of the batch *)

Lemma process_file_records llm load f calls recs calls' :
  process_file llm load f calls = (Ok recs, calls') ->
  exists rows, recs = clean_rows rows.
Proof.
  unfold process_file. intros H.
  apply bind_Ok in H as (bytes & c1 & _ & H).
  now apply process_single_records in H.
Qed.

Lemma batch_result_accounting llm load msg0 files calls rows errs calls' :
  batch_result llm load msg0 files calls rows errs calls' ->
  length errs <= length files /\
  incl (map fst errs) (map name files) /\
  (rows = [] <-> length errs = length files) /\
  Forall (fun rec => dict_keys rec = COLUMNS) rows.
Proof.
  induction 1 as [c
                 |f fs c msg c1 rows errs c2 Hf Hb (Hlen & Hincl & Hnil & Hkeys)
                 |f fs c c1 rows errs c2 Hf Hb (Hlen & Hincl & Hnil & Hkeys)
                 |f fs c recs c1 rows errs c2 Hf Hne Hb (Hlen & Hincl & Hnil & Hkeys)].
  - simpl. split; [lia|]. split; [apply incl_nil_l|]. split; [tauto|constructor].
  - simpl. split; [lia|]. split; [|split; [|exact Hkeys]].
    + apply incl_cons; [now left|now apply incl_tl].
    + split; intros E; [f_equal; now apply Hnil|apply Hnil; lia].
  - simpl. split; [lia|]. split; [|split; [|exact Hkeys]].
    + apply incl_cons; [now left|now apply incl_tl].
    + split; intros E; [f_equal; now apply Hnil|apply Hnil; lia].
  - simpl. split; [lia|]. split; [|split].
    + now apply incl_tl.
    + split; intros E; [|lia].
      apply app_eq_nil in E as [E _]. contradiction.
    + apply Forall_app. split; [|exact Hkeys].
      apply process_file_records in Hf as (raw & ->). apply clean_rows_keys.
Qed.

Lemma process_uploaded_accounting llm load files calls rows errs calls' :
  process_uploaded_pdfs llm load files calls = (Ok (rows, errs), calls') ->
  length errs <= length files /\
  incl (map fst errs) (map name files) /\
  (rows = [] <-> length errs = length files) /\
  Forall (fun rec => dict_keys rec = COLUMNS) rows.
Proof.
  intros H.
  destruct (process_uploaded_batch llm load files calls)
    as (rows' & errs' & c & H' & Hb).
  rewrite H in H'. injection H' as <- <- <-.
  exact (batch_result_accounting _ _ _ _ _ _ _ _ Hb).
Qed.



(** X6: every record of a batch result, from whichever document, has
    exactly the Schema's field names as keys, in the Schema's order. *)
Theorem batch_records_keep_schema
        (llm : nat -> string -> result string)
        (load : list Byte.byte -> result string)
        (files : list uploaded_file) (calls : nat)
        (rows : list pydict) (errs : list (string * string)) (calls' : nat) :
  process_uploaded_pdfs llm load files calls = (Ok (rows, errs), calls') ->
  Forall (fun rec => dict_keys rec = COLUMNS /\ length rec = 51) rows.
Proof.
  intros H.
  destruct (process_uploaded_accounting _ _ _ _ _ _ _ H) as (_ & _ & _ & Hkeys).
  eapply Forall_impl; [|exact Hkeys].
  intros rec Hrec. split; [exact Hrec|].
  rewrite <- COLUMNS_length, <- Hrec. unfold dict_keys. now rewrite length_map.
Qed.

Lemma batch_records_keep_schema_witness :
  Forall (fun rec => dict_keys rec = COLUMNS /\ length rec = 51)
         ([project_onto COLUMNS sample_candidate] ++
          [project_onto COLUMNS sample_candidate]).
Proof.
  apply (batch_records_keep_schema (always sample_reply) sample_load
           [first_pdf; broken_pdf; third_pdf] 0 _
           [(name broken_pdf, "Cannot read an empty file"%string)] 2).
  vm_compute. reflexivity.
Defined.

(** The accumulators only prefix what the loop produces from empty ones. *)
Lemma process_loop_acc llm load files :
  forall rows0 errs0 calls,
    process_loop llm load files rows0 errs0 calls =
    match process_loop llm load files [] [] calls with
    | (Ok (rows, errs), calls') => (Ok (rows0 ++ rows, errs0 ++ errs), calls')
    | (Raise msg, calls') => (Raise msg, calls')
    end.
Proof.
  induction files as [|f files IH]; intros rows0 errs0 calls.
  - simpl. unfold ret. now rewrite !app_nil_r.
  - rewrite !process_loop_cons.
    destruct (process_file llm load f calls) as [[[|r recs]|msg] c].
    + rewrite (IH rows0 (errs0 ++ _)), (IH [] ([] ++ _)).
      destruct (process_loop llm load files [] [] c) as [[[rows errs]|m] c'];
        [|reflexivity].
      now rewrite <- !app_assoc.
    + rewrite (IH (rows0 ++ _) errs0), (IH ([] ++ _) []).
      destruct (process_loop llm load files [] [] c) as [[[rows errs]|m] c'];
        [|reflexivity].
      now rewrite <- !app_assoc.
    + rewrite (IH rows0 (errs0 ++ _)), (IH [] ([] ++ _)).
      destruct (process_loop llm load files [] [] c) as [[[rows errs]|m] c'];
        [|reflexivity].
      now rewrite <- !app_assoc.
Qed.

(** X5: a batch over two lists of files put end to end is the batch over
    the first followed by the batch over the second, started at the call
    count the first one left: records and errors are concatenated in that
    order. *)
Theorem batch_splits
        (llm : nat -> string -> result string)
        (load : list Byte.byte -> result string)
        (pre post : list uploaded_file) (calls calls1 calls2 : nat)
        (rows1 rows2 : list pydict) (errs1 errs2 : list (string * string)) :
  process_uploaded_pdfs llm load pre calls = (Ok (rows1, errs1), calls1) ->
  process_uploaded_pdfs llm load post calls1 = (Ok (rows2, errs2), calls2) ->
  process_uploaded_pdfs llm load (pre ++ post) calls =
  (Ok (rows1 ++ rows2, errs1 ++ errs2), calls2).
Proof.
  unfold process_uploaded_pdfs. intros Hpre Hpost.
  rewrite (process_loop_app llm load pre post _ _ _ _ _ _ Hpre).
  rewrite process_loop_acc, Hpost. reflexivity.
Qed.

Lemma batch_splits_witness :
  process_uploaded_pdfs (always sample_reply) sample_load
                        ([first_pdf; broken_pdf] ++ [third_pdf]) 0 =
  (Ok ([project_onto COLUMNS sample_candidate] ++
       [project_onto COLUMNS sample_candidate],
       [(name broken_pdf, "Cannot read an empty file"%string)] ++ []), 2).
Proof.
  apply (batch_splits (always sample_reply) sample_load
           [first_pdf; broken_pdf] [third_pdf] 0 1 2);
    vm_compute; reflexivity.
Defined.

(** ** More on the Schema Reconciler and the Shape Normalizer *)

Lemma project_onto_ext (r1 r2 : pydict) :
  (forall col, In col COLUMNS ->
               dict_get_default r1 col (JStr "") = dict_get_default r2 col (JStr "")) ->
  project_onto COLUMNS r1 = project_onto COLUMNS r2.
Proof.
  intros Hagree. rewrite !project_onto_COLUMNS.
  apply map_ext_in. intros col Hin. now rewrite (Hagree col Hin).
Qed.

Lemma project_get_default (r : pydict) (col : string) :
  In col COLUMNS ->
  dict_get_default (project_onto COLUMNS r) col (JStr "") =
  dict_get_default r col (JStr "").
Proof.
  intros Hin. unfold dict_get_default at 1. rewrite project_get.
  destruct (in_dec string_dec col COLUMNS) as [_|Hn]; [reflexivity|contradiction].
Qed.

(** X7: two candidates give the same Record exactly when they agree on
    every Schema field, an absent field counting as the empty string; keys
    outside the Schema and the order of the candidate's keys play no part.
    Projecting a Record again gives the same Record. *)
Theorem projection_idempotent :
  (forall r1 r2 : pydict,
      project_onto COLUMNS r1 = project_onto COLUMNS r2 <->
      (forall col, In col COLUMNS ->
                   dict_get_default r1 col (JStr "") =
                   dict_get_default r2 col (JStr ""))) /\
  (forall r : pydict,
      project_onto COLUMNS (project_onto COLUMNS r) = project_onto COLUMNS r).
Proof.
  split.
  - intros r1 r2. split; [|apply project_onto_ext].
    intros E col Hin.
    rewrite <- (project_get_default r1 col Hin), <- (project_get_default r2 col Hin).
    now rewrite E.
  - intros r. apply project_onto_ext. intros col Hin.
    now apply project_get_default.
Qed.

Lemma projection_idempotent_witness :
  project_onto COLUMNS [("extra", JInt 1); ("Qty", JStr ""); ("SB NO.", JStr "9")] =
  project_onto COLUMNS [("SB NO.", JStr "9")].
Proof.
  apply (proj1 projection_idempotent).
  intros col Hin. unfold dict_get_default. simpl.
  destruct (String.eqb col "extra") eqn:E1.
  - apply String.eqb_eq in E1 as ->.
    exfalso. revert Hin. vm_compute. intuition discriminate.
  - destruct (String.eqb col "Qty") eqn:E2; [|reflexivity].
    apply String.eqb_eq in E2 as ->. reflexivity.
Defined.

Lemma clean_rows_dicts_of (rows : list json) :
  clean_rows rows = map (project_onto COLUMNS) (dicts_of rows).
Proof.
  induction rows as [|x rows IH]; [reflexivity|].
  destruct x; simpl; try exact IH. now rewrite IH.
Qed.

Lemma dicts_of_all_dicts (l : list json) :
  forallb is_dict l = true -> length (dicts_of l) = length l.
Proof.
  induction l as [|x l IH]; [reflexivity|].
  destruct x; simpl; try discriminate. intros H. now rewrite IH.
Qed.

Lemma first_dict_list_all_dicts (values l : list json) :
  first_dict_list values = Some l -> forallb is_dict l = true.
Proof.
  induction values as [|v values IH]; [discriminate|].
  destruct v; simpl; try exact IH.
  destruct (forallb is_dict l0) eqn:E; [|exact IH].
  now intros [= <-].
Qed.

Lemma normalize_dict_all_dicts (d : pydict) :
  forallb is_dict (normalize_extracted (JDict d)) = true.
Proof.
  unfold normalize_extracted.
  destruct (first_dict_list (dict_values d)) as [l|] eqn:E; [|reflexivity].
  now apply first_dict_list_all_dicts in E.
Qed.

(** X8: the records of a decoded value are the projections of the
    mappings among its normalized items, in order, the other items being
    dropped without trace.  From a mapping nothing is dropped, and a
    mapping gives no record only when its first nested sequence of
    mappings is empty; a sequence gives no record exactly when it holds no
    mapping; a scalar never gives one. *)
Theorem records_of_decoded_value :
  (forall x,
      clean_rows (normalize_extracted x) =
      map (project_onto COLUMNS) (dicts_of (normalize_extracted x))) /\
  (forall d,
      length (clean_rows (normalize_extracted (JDict d))) =
      length (normalize_extracted (JDict d)) /\
      (clean_rows (normalize_extracted (JDict d)) = [] <->
       first_dict_list (dict_values d) = Some [])) /\
  (forall l,
      clean_rows (normalize_extracted (JList l)) = [] <-> dicts_of l = []) /\
  (forall x, is_list x = false -> is_dict x = false ->
             clean_rows (normalize_extracted x) = []).
Proof.
  split; [intros x; apply clean_rows_dicts_of|]. split; [|split].
  - intros d. split.
    + rewrite clean_rows_dicts_of, length_map.
      apply dicts_of_all_dicts, normalize_dict_all_dicts.
    + unfold normalize_extracted.
      destruct (first_dict_list (dict_values d)) as [l|] eqn:E.
      * pose proof (first_dict_list_all_dicts _ _ E) as Hl.
        split.
        -- intros Hnil. f_equal.
           apply length_zero_iff_nil.
           rewrite <- (dicts_of_all_dicts l Hl).
           rewrite clean_rows_dicts_of in Hnil.
           apply (f_equal (@length _)) in Hnil.
           now rewrite length_map in Hnil.
        -- now intros [= ->].
      * split; discriminate.
  - intros l. simpl. rewrite clean_rows_dicts_of. split.
    + intros H. now apply map_eq_nil in H.
    + now intros ->.
  - intros x Hl Hd. destruct x; simpl in *; try reflexivity; discriminate.
Qed.

Lemma records_of_decoded_value_witness :
  clean_rows (normalize_extracted (JStr "n/a")) = [].
Proof.
  apply (proj2 (proj2 (proj2 records_of_decoded_value))); reflexivity.
Defined.

(** ** End to end *)

(** X14: for a file that is read, whose text is extracted and whose first
    model reply decodes to a value [v], the batch over that file makes one
    model call, with the prompt built from the text, and returns the
    records of [v] with no error, or, when [v] has no record, no record
    and the "No material items" error under the file's name. *)
Theorem single_document_end_to_end
        (llm : nat -> string -> result string)
        (load : list Byte.byte -> result string)
        (f : uploaded_file) (bytes : list Byte.byte) (text reply : string)
        (v : json) (calls : nat) :
  read f = Ok bytes ->
  load bytes = Ok text ->
  llm calls (extraction_prompt text) = Ok reply ->
  attempt_decode reply = Some v ->
  process_file llm load f calls =
  (Ok (clean_rows (normalize_extracted v)), S calls) /\
  process_uploaded_pdfs llm load [f] calls =
  match clean_rows (normalize_extracted v) with
  | [] => (Ok ([], [(name f, NO_ITEMS)]), S calls)
  | recs => (Ok (recs, []), S calls)
  end.
Proof.
  intros Hr Hl Hreply Hv.
  assert (process_file llm load f calls =
          (Ok (clean_rows (normalize_extracted v)), S calls)) as Hf.
  { rewrite (process_file_unfold _ _ _ _ _ _ Hr Hl).
    now rewrite (generate_return llm _ 2 calls reply v Hreply Hv). }
  split; [exact Hf|].
  rewrite process_uploaded_single, Hf.
  destruct (clean_rows (normalize_extracted v)); reflexivity.
Qed.

(** The end-to-end example of the specification: the model returns one
    mapping with "SB NO." bound to "123". *)
Lemma single_document_end_to_end_witness :
  process_file (always sample_reply) sample_load first_pdf 0 =
  (Ok (clean_rows (normalize_extracted (JList [JDict sample_candidate]))), 1) /\
  process_uploaded_pdfs (always sample_reply) sample_load [first_pdf] 0 =
  match clean_rows (normalize_extracted (JList [JDict sample_candidate])) with
  | [] => (Ok ([], [(name first_pdf, NO_ITEMS)]), 1)
  | recs => (Ok (recs, []), 1)
  end.
Proof.
  apply (single_document_end_to_end
           (always sample_reply) sample_load first_pdf
           [Byte.x25; Byte.x50] "SHIPPING BILL" sample_reply
           (JList [JDict sample_candidate]) 0); reflexivity.
Defined.

(** X15: a document whose three replies all fail to decode costs exactly
    three model calls and is reported with the "No material items"
    error: the same report as for a document whose reply decoded to a
    value without records. *)
Theorem exhausted_retries_reported
        (llm : nat -> string -> result string)
        (load : list Byte.byte -> result string)
        (f : uploaded_file) (bytes : list Byte.byte) (text : string)
        (calls : nat) :
  read f = Ok bytes ->
  load bytes = Ok text ->
  (forall i, i < 3 -> fails_at llm (extraction_prompt text) calls i) ->
  process_uploaded_pdfs llm load [f] calls =
  (Ok ([], [(name f, NO_ITEMS)]), calls + 3).
Proof.
  intros Hr Hl Hfail.
  rewrite process_uploaded_single, (process_file_unfold _ _ _ _ _ _ Hr Hl).
  now rewrite (generate_all_fail llm _ 3 calls Hfail).
Qed.

Lemma exhausted_retries_reported_witness :
  process_uploaded_pdfs (always "no data") sample_load [first_pdf] 0 =
  (Ok ([], [(name first_pdf, NO_ITEMS)]), 0 + 3).
Proof.
  apply (exhausted_retries_reported (always "no data") sample_load first_pdf
           [Byte.x25; Byte.x50] "SHIPPING BILL" 0); try reflexivity.
  intros i _. exists "no data"%string. split; reflexivity.
Defined.

(** ** More on the bracket fallback *)

Lemma mem_char_app (c : ascii) (a b : string) :
  mem_char c (a ++ b)%string = mem_char c a || mem_char c b.
Proof.
  induction a as [|x a IH]; [reflexivity|].
  simpl. rewrite !mem_char_cons, IH. now rewrite orb_assoc.
Qed.

Lemma upto_last_absent (c : ascii) (s : string) :
  mem_char c s = false -> upto_last c s = None.
Proof.
  induction s as [|a r IH]; [reflexivity|].
  rewrite mem_char_cons. intros H. apply orb_false_elim in H as [Hca Hr].
  simpl. rewrite (IH Hr). now rewrite Ascii.eqb_sym, Hca.
Qed.

Lemma upto_last_closing (c : ascii) (body post : string) :
  mem_char c post = false ->
  upto_last c (body ++ String c post) = Some (body ++ String c "")%string.
Proof.
  intros Hpost. induction body as [|a body IH]; simpl.
  - now rewrite (upto_last_absent c post Hpost), Ascii.eqb_refl.
  - now rewrite IH.
Qed.

Lemma extract_json_block_skip (pre rest : string) :
  mem_char "[" pre = false -> mem_char "{" pre = false ->
  _extract_json_block (pre ++ rest) = _extract_json_block rest.
Proof.
  induction pre as [|a pre IH]; [reflexivity|].
  rewrite !mem_char_cons. intros H1 H2.
  apply orb_false_elim in H1 as [Ha1 Hp1].
  apply orb_false_elim in H2 as [Ha2 Hp2].
  simpl. rewrite Ascii.eqb_sym, Ha1, Ascii.eqb_sym, Ha2. now apply IH.
Qed.

(** X9: when the text before the first opening bracket (or brace) holds
    neither bracket nor brace, the block is everything from that opening
    character to the last closing partner in the text: prose around a JSON
    array is stripped, but prose after it that holds a closing bracket is
    swallowed into the block.  When the whole text does not decode, the
    attempt's value is the decoding of that block. *)
Theorem block_spans_to_last_closer
        (o c : ascii) (pre body post : string) :
  closer_of o = Some c ->
  mem_char "[" pre = false -> mem_char "{" pre = false ->
  mem_char c post = false ->
  _extract_json_block (pre ++ String o (body ++ String c post)) =
  Some (String o (body ++ String c "")) /\
  (json_loads (pre ++ String o (body ++ String c post)) = None ->
   attempt_decode (pre ++ String o (body ++ String c post)) =
   json_loads (String o (body ++ String c ""))).
Proof.
  intros Hoc Hpre1 Hpre2 Hpost.
  assert (_extract_json_block (pre ++ String o (body ++ String c post)) =
          Some (String o (body ++ String c ""))) as Hblock.
  { rewrite (extract_json_block_skip pre _ Hpre1 Hpre2).
    rewrite extract_json_block_cons, Hoc.
    now rewrite (upto_last_closing c body post Hpost). }
  split; [exact Hblock|].
  intros Hwhole. rewrite (attempt_decode_fallback _ Hwhole).
  unfold block_decode. now rewrite Hblock.
Qed.

(** Prose after the array that holds a closing bracket: the block runs to
    that bracket, and the attempt fails. *)
Lemma block_spans_to_last_closer_witness :
  _extract_json_block ("Rows: " ++ String "[" ("1, 2] (see [3" ++ String "]" "."))
  = Some (String "[" ("1, 2] (see [3" ++ String "]" "")) /\
  attempt_decode ("Rows: " ++ String "[" ("1, 2] (see [3" ++ String "]" ".")) = None.
Proof.
  destruct (block_spans_to_last_closer "[" "]" "Rows: " "1, 2] (see [3" "."
              eq_refl eq_refl eq_refl eq_refl) as [Hblock Hdec].
  split; [exact Hblock|].
  rewrite Hdec; reflexivity.
Defined.

Lemma no_block_start_None (text : string) :
  no_block_start text "" -> _extract_json_block text = None.
Proof.
  induction text as [|a r IH]; [reflexivity|].
  simpl no_block_start. intros [Ha Hr].
  rewrite extract_json_block_cons.
  destruct (closer_of a) as [c|] eqn:Ec; [|now apply IH].
  specialize (Ha c eq_refl). rewrite str_app_nil_r in Ha.
  rewrite (upto_last_absent c r Ha). now apply IH.
Qed.

Lemma no_opener_no_block_start (text rest : string) :
  mem_char "[" text = false -> mem_char "{" text = false ->
  no_block_start text rest.
Proof.
  induction text as [|a r IH]; [easy|].
  rewrite !mem_char_cons. intros H1 H2.
  apply orb_false_elim in H1 as [Ha1 Hp1].
  apply orb_false_elim in H2 as [Ha2 Hp2].
  split; [|now apply IH].
  intros c. unfold closer_of.
  rewrite Ascii.eqb_sym, Ha1, Ascii.eqb_sym, Ha2. discriminate.
Qed.

(** X10: the pattern finds a block exactly when some opening bracket of
    the text has a closing bracket after it, or some opening brace a
    closing brace; so a response without opening bracket and brace gets
    its only chance from the decoding of the whole text. *)
Theorem block_found_iff (text : string) :
  (_extract_json_block text = None <-> no_block_start text "") /\
  (mem_char "[" text = false -> mem_char "{" text = false ->
   _extract_json_block text = None /\ attempt_decode text = json_loads text).
Proof.
  split.
  - split; [apply extract_json_block_None|apply no_block_start_None].
  - intros H1 H2.
    assert (_extract_json_block text = None) as Hnone
        by now apply no_block_start_None, no_opener_no_block_start.
    split; [exact Hnone|].
    unfold attempt_decode. rewrite Hnone.
    now destruct (json_loads text).
Qed.

Lemma block_found_iff_witness :
  _extract_json_block "42 items] } found" = None /\
  attempt_decode "42 items] } found" = json_loads "42 items] } found".
Proof.
  apply (proj2 (block_found_iff "42 items] } found")); reflexivity.
Defined.

(** ** The image helpers *)

Lemma b64_char_ok (n : N) : is_b64_char (b64_char n) = true.
Proof.
  unfold b64_char.
  destruct (n <? 26)%N eqn:E1; [apply N.ltb_lt in E1|apply N.ltb_ge in E1].
  { unfold is_b64_char. rewrite N_ascii_embedding by lia.
    assert ((65 <=? 65 + n)%N = true) as -> by (apply N.leb_le; lia).
    assert ((65 + n <=? 90)%N = true) as -> by (apply N.leb_le; lia).
    reflexivity. }
  destruct (n <? 52)%N eqn:E2; [apply N.ltb_lt in E2|apply N.ltb_ge in E2].
  { unfold is_b64_char. rewrite N_ascii_embedding by lia.
    assert ((97 <=? 97 + (n - 26))%N = true) as -> by (apply N.leb_le; lia).
    assert ((97 + (n - 26) <=? 122)%N = true) as -> by (apply N.leb_le; lia).
    now rewrite orb_true_r. }
  destruct (n <? 62)%N eqn:E3; [apply N.ltb_lt in E3|apply N.ltb_ge in E3].
  { unfold is_b64_char. rewrite N_ascii_embedding by lia.
    assert ((48 <=? 48 + (n - 52))%N = true) as -> by (apply N.leb_le; lia).
    assert ((48 + (n - 52) <=? 57)%N = true) as -> by (apply N.leb_le; lia).
    now rewrite !orb_true_r. }
  destruct (n =? 62)%N; reflexivity.
Qed.

(** Induction on a list three items at a time, as [b64encode] reads it. *)
Lemma list_ind3 {A} (P : list A -> Prop) :
  P [] -> (forall a, P [a]) -> (forall a b, P [a; b]) ->
  (forall a b c l, P l -> P (a :: b :: c :: l)) ->
  forall l, P l.
Proof.
  intros H0 H1 H2 H3.
  refine (fix F (l : list A) : P l :=
            match l with
            | [] => H0
            | [a] => H1 a
            | [a; b] => H2 a b
            | a :: b :: c :: l' => H3 a b c l' (F l')
            end).
Qed.

Lemma b64encode_alphabet (data : list Byte.byte) :
  string_forall is_b64_char (b64encode data) = true.
Proof.
  induction data as [|a|a b|a b c l IH] using list_ind3;
    cbn [b64encode string_forall]; rewrite ?b64_char_ok, ?IH; reflexivity.
Qed.

Lemma b64encode_length (data : list Byte.byte) :
  String.length (b64encode data) = 4 * ((length data + 2) / 3).
Proof.
  induction data as [|a|a b|a b c l IH] using list_ind3;
    try reflexivity.
  cbn [b64encode String.length length]. rewrite IH.
  replace (S (S (S (length l))) + 2) with ((length l + 2) + 1 * 3) by lia.
  rewrite Nat.div_add by lia. lia.
Qed.

Lemma string_forall_absent (p : ascii -> bool) (c : ascii) (s : string) :
  string_forall p s = true -> p c = false -> mem_char c s = false.
Proof.
  intros Hs Hc. induction s as [|a r IH]; [reflexivity|].
  simpl in Hs. apply andb_prop in Hs as [Ha Hr].
  rewrite mem_char_cons, (IH Hr), orb_false_r.
  destruct (Ascii.eqb_spec c a) as [->|_]; [congruence|reflexivity].
Qed.

(** X12: the string [get_base64_of_bin_file] returns for a readable file
    has four characters for every started group of three bytes, all of
    them letters, digits, [+], [/] or [=]; it holds no double quote, angle
    bracket or space, so it cannot end the attribute the callers put it
    in.  When the file cannot be read the exception leaves the function. *)
Theorem base64_of_file_well_formed
        (read_binary : string -> result (list Byte.byte)) (bin_file : string) :
  (forall data,
      read_binary bin_file = Ok data ->
      exists s,
        get_base64_of_bin_file read_binary bin_file = Ok s /\
        String.length s = 4 * ((length data + 2) / 3) /\
        string_forall is_b64_char s = true /\
        mem_char dquote s = false /\ mem_char "<" s = false /\
        mem_char ">" s = false /\ mem_char " " s = false) /\
  (forall msg,
      read_binary bin_file = Raise msg ->
      get_base64_of_bin_file read_binary bin_file = Raise msg).
Proof.
  unfold get_base64_of_bin_file. split.
  - intros data ->. exists (b64encode data).
    pose proof (b64encode_alphabet data) as Halpha.
    split; [reflexivity|]. split; [apply b64encode_length|].
    split; [exact Halpha|].
    repeat split; now apply (string_forall_absent is_b64_char).
  - now intros msg ->.
Qed.

Lemma base64_of_file_well_formed_witness :
  (exists s,
      get_base64_of_bin_file sample_files "solar_logo.png" = Ok s /\
      String.length s = 4 * ((4 + 2) / 3) /\
      string_forall is_b64_char s = true /\
      mem_char dquote s = false /\ mem_char "<" s = false /\
      mem_char ">" s = false /\ mem_char " " s = false) /\
  get_base64_of_bin_file sample_files "missing.png" =
  Raise "No such file or directory".
Proof.
  split.
  - apply (proj1 (base64_of_file_well_formed sample_files "solar_logo.png")
                 [Byte.x89; Byte.x50; Byte.x4e; Byte.x47]). reflexivity.
  - apply (proj2 (base64_of_file_well_formed sample_files "missing.png")).
    reflexivity.
Defined.

Lemma split_on_no_sep (sep : ascii) (s : string) :
  mem_char sep s = false -> split_on sep s = [s].
Proof.
  induction s as [|c r IH]; [reflexivity|].
  rewrite mem_char_cons. intros H. apply orb_false_elim in H as [Hc Hr].
  simpl. rewrite Ascii.eqb_sym, Hc. now rewrite (IH Hr).
Qed.

Lemma split_on_last_sep (sep : ascii) (p t : string) :
  mem_char sep t = false ->
  exists piece pieces,
    split_on sep (p ++ String sep t) = piece :: pieces ++ [t].
Proof.
  intros Ht. induction p as [|c p (piece & pieces & IH)].
  - exists EmptyString, []. simpl.
    now rewrite Ascii.eqb_refl, (split_on_no_sep sep t Ht).
  - simpl. rewrite IH. destruct (c =? sep)%char.
    + now exists EmptyString, (piece :: pieces).
    + now exists (String c piece), pieces.
Qed.

Lemma last_piece_no_sep (sep : ascii) (s : string) :
  mem_char sep s = false -> last_piece (split_on sep s) = s.
Proof. intros H. now rewrite (split_on_no_sep sep s H). Qed.

Lemma last_piece_after_sep (sep : ascii) (p t : string) :
  mem_char sep t = false ->
  last_piece (split_on sep (p ++ String sep t)) = t.
Proof.
  intros Ht. destruct (split_on_last_sep sep p t Ht) as (piece & pieces & ->).
  unfold last_piece. rewrite app_comm_cons. apply last_last.
Qed.

Lemma img_html_not_empty (url fmt b64 style : string) :
  img_html url fmt b64 style <> EmptyString.
Proof. discriminate. Qed.

(** X11: [get_img_with_href] never raises; it returns the empty string
    exactly when the image file cannot be read, and otherwise the anchor
    markup around a data URI whose image format is what follows the last
    dot of the path, or the whole path when it has no dot. *)
Theorem img_with_href_total
        (read_binary : string -> result (list Byte.byte))
        (local_img_path target_url img_style : string) :
  (get_img_with_href read_binary local_img_path target_url img_style = EmptyString
   <-> exists msg, read_binary local_img_path = Raise msg) /\
  (forall data p t,
      read_binary local_img_path = Ok data ->
      local_img_path = (p ++ String "." t)%string ->
      mem_char "." t = false ->
      get_img_with_href read_binary local_img_path target_url img_style =
      img_html target_url t (b64encode data) img_style) /\
  (forall data,
      read_binary local_img_path = Ok data ->
      mem_char "." local_img_path = false ->
      get_img_with_href read_binary local_img_path target_url img_style =
      img_html target_url local_img_path (b64encode data) img_style).
Proof.
  unfold get_img_with_href, get_base64_of_bin_file. split; [|split].
  - destruct (read_binary local_img_path) as [data|msg].
    + split; [intros H; now apply img_html_not_empty in H|].
      intros (msg & H). discriminate.
    + split; [intros _; now exists msg|reflexivity].
  - intros data p t -> -> Ht. now rewrite (last_piece_after_sep "." p t Ht).
  - intros data -> Hs. now rewrite (last_piece_no_sep "." _ Hs).
Qed.

Lemma img_with_href_total_witness :
  get_img_with_href sample_files "missing.png" "https://solargroup.com" "" =
  EmptyString /\
  get_img_with_href sample_files "solar_logo.png" "https://solargroup.com" "" =
  img_html "https://solargroup.com" "png"
           (b64encode [Byte.x89; Byte.x50; Byte.x4e; Byte.x47]) "".
Proof.
  split.
  - apply (proj1 (img_with_href_total sample_files "missing.png"
                    "https://solargroup.com" "")).
    now exists "No such file or directory"%string.
  - apply (proj1 (proj2 (img_with_href_total sample_files "solar_logo.png"
                           "https://solargroup.com" ""))
                 [Byte.x89; Byte.x50; Byte.x4e; Byte.x47] "solar_logo" "png");
      reflexivity.
Defined.

(** X13: the header's logo degrades and the info section's does not.  When
    the logo under [assets/] exists but cannot be read, [create_header]
    shows no logo, without trying the logo beside the script; when neither
    exists it shows none either.  In [create_info_section] the encoding is
    outside any [try]: a spiral logo that exists but cannot be read makes
    the function raise. *)
Theorem logo_fallbacks
        (read_binary : string -> result (list Byte.byte))
        (path_exists : string -> bool) :
  (forall msg,
      path_exists "assets/solar_logo.png" = true ->
      read_binary "assets/solar_logo.png" = Raise msg ->
      header_logo_html read_binary path_exists = EmptyString) /\
  (path_exists "assets/solar_logo.png" = false ->
   path_exists "solar_logo.png" = false ->
   header_logo_html read_binary path_exists = EmptyString) /\
  (forall msg,
      path_exists "assets/spiral_logo.png" = true ->
      read_binary "assets/spiral_logo.png" = Raise msg ->
      info_spiral_logo_html read_binary path_exists = Raise msg) /\
  (forall msg,
      path_exists "assets/spiral_logo.png" = false ->
      path_exists "spiral_logo.png" = true ->
      read_binary "spiral_logo.png" = Raise msg ->
      info_spiral_logo_html read_binary path_exists = Raise msg).
Proof.
  unfold header_logo_html, info_spiral_logo_html,
    get_img_with_href, get_base64_of_bin_file.
  split; [|split; [|split]].
  - intros msg -> ->. reflexivity.
  - intros -> ->. reflexivity.
  - intros msg -> ->. reflexivity.
  - intros msg -> -> ->. reflexivity.
Qed.

Lemma logo_fallbacks_witness :
  info_spiral_logo_html sample_files sample_exists =
  Raise "No such file or directory" /\
  header_logo_html sample_files (fun _ => false) = EmptyString.
Proof.
  split.
  - apply (proj1 (proj2 (proj2 (logo_fallbacks sample_files sample_exists))));
      reflexivity.
  - apply (proj1 (proj2 (logo_fallbacks sample_files (fun _ => false))));
      reflexivity.
Defined.
